(** * threaded_rng_cache: a shallow embedding of [RngCache]

    The header [include/threaded_rng_cache.hpp] defines one class template,
    [RngCache<DistributionT, EngineT, CHUNK_SIZE>], with two nested classes:
    [Chunk] (a fixed array with a read cursor) and [Producer] (an engine, a
    distribution, a chunk and a thread that refills the chunk).

    The template arguments are the fields of the class [Template].  Sizes and
    indices bounded by a container ([size_t m_nextIndex], the iterator
    [m_nextProducer]) are [nat]; seeds, which the code shifts and ors, are
    [Z] with the wrap-around of their width written out.  A [unique_ptr] that
    is never aliased is the value it owns.  Each critical section of a
    producer's monitor is one atomic step, and a thread waiting on the
    condition variable takes its step once its predicate holds. *)

From Stdlib Require Import ZArith Lia List Bool.
From stdpp Require Import base option list.
Import ListNotations.

Set Default Goal Selector "!".

(** ** Outcomes of a call *)

(** What a call can do besides returning: trip [assert], index a container
    out of range, or throw the [std::logic_error] of [swapChunk]. *)
Inductive failure : Set :=
| AssertionFailed
| OutOfRange
| ClosedInstance.

Inductive outcome (A : Type) : Type :=
| Returned (a : A)
| Failed (f : failure).
Arguments Returned {A} a.
Arguments Failed {A} f.

(** A call that waits on a condition variable either is still waiting or has
    gone through its critical section. *)
Inductive blocking (A : Type) : Type :=
| Waiting
| Done (a : A).
Arguments Waiting {A}.
Arguments Done {A} a.

(** ** Stateful generators, as [std::ranges::generate] drives them *)

Section Generate.
Context {St A : Type}.
Variable gen : St -> A * St.

(** [std::ranges::generate(range, gen)]: every element of the range, first
    to last, is assigned the result of one call of [gen]. *)
Fixpoint ranges_generate {B : Type} (range : list B) (s : St) : list A * St :=
  match range with
  | [] => ([], s)
  | _ :: rest =>
      let (v, s1) := gen s in
      let (vs, s2) := ranges_generate rest s1 in
      (v :: vs, s2)
  end.

(** The reference reading of "call [gen] again and again": the state after
    [n] calls, the value that call number [n] (from 0) returns, and the
    list of the first [n] values. *)
Fixpoint state_after (n : nat) (s : St) : St :=
  match n with
  | O => s
  | S k => state_after k (snd (gen s))
  end.

Definition draw_nth (s : St) (n : nat) : A := fst (gen (state_after n s)).

Definition draws (n : nat) (s : St) : list A := draw_nth s <$> seq 0 n.
End Generate.

(** ** The template arguments *)

Class Template : Type := {
  (** [DistributionT::result_type], and what a value-initialised slot of
      [std::array<result_type, CHUNK_SIZE>] holds. *)
  result_type : Type;
  result_zero : result_type;
  (** [EngineT]: construction from a seed, and [operator()], which returns a
      [seed_type] and advances the engine. *)
  EngineT : Type;
  engine_seed : Z -> EngineT;
  engine_call : EngineT -> Z * EngineT;
  (** [sizeof(seed_type)], in bytes. *)
  seedSize : nat;
  (** [DistributionT]: [operator()(engine)] may change the distribution's own
      state as well as the engine's. *)
  DistributionT : Type;
  dist_call : DistributionT -> EngineT -> result_type * DistributionT * EngineT;
  CHUNK_SIZE : nat
}.

Section RngCache.
Context {T : Template}.

(** *** Chunk *)

Record Chunk : Type := mkChunk {
  m_nextIndex : nat;
  m_values : list result_type
}.

Definition Chunk_new : Chunk :=
  {| m_nextIndex := CHUNK_SIZE; m_values := repeat result_zero CHUNK_SIZE |}.

Definition Chunk_empty (c : Chunk) : bool := m_nextIndex c =? length (m_values c).

Definition Chunk_full (c : Chunk) : bool := m_nextIndex c =? 0.

(** [assert(!empty()); return m_values[m_nextIndex++];] *)
Definition Chunk_next (c : Chunk) : outcome (result_type * Chunk) :=
  if Chunk_empty c then Failed AssertionFailed
  else match m_values c !! m_nextIndex c with
       | Some v => Returned (v, {| m_nextIndex := m_nextIndex c + 1; m_values := m_values c |})
       | None => Failed OutOfRange
       end.

Definition Chunk_fill {St : Type} (generator : St -> result_type * St) (c : Chunk) (s : St)
  : Chunk * St :=
  let (vs, s') := ranges_generate generator (m_values c) s in
  ({| m_nextIndex := 0; m_values := vs |}, s').

(** [n] consecutive calls of [next], collecting what they return. *)
Fixpoint Chunk_next_n (n : nat) (c : Chunk) : outcome (list result_type * Chunk) :=
  match n with
  | O => Returned ([], c)
  | S k =>
      match Chunk_next c with
      | Returned (v, c1) =>
          match Chunk_next_n k c1 with
          | Returned (vs, c2) => Returned (v :: vs, c2)
          | Failed f => Failed f
          end
      | Failed f => Failed f
      end
  end.

(** *** Producer *)

(** The mutex and the condition variable carry no data; the thread is the
    [Producer_run] loop below. *)
Record Producer : Type := mkProducer {
  m_shutdown : bool;
  m_chunk : Chunk;
  m_distribution : DistributionT;
  m_engine : EngineT
}.

Definition Producer_new (distribution : DistributionT) (seed : Z) : Producer :=
  {| m_shutdown := false;
     m_chunk := Chunk_new;
     m_distribution := distribution;
     m_engine := engine_seed seed |}.

(** [return m_distribution(m_engine);], on the two members it changes. *)
Definition Producer_generate (s : DistributionT * EngineT)
  : result_type * (DistributionT * EngineT) :=
  let '(v, d, e) := dist_call s.1 s.2 in (v, (d, e)).

Definition Producer_swapWaitCondition (p : Producer) : bool :=
  m_shutdown p || Chunk_full (m_chunk p).

Definition Producer_fillWaitCondition (p : Producer) : bool :=
  m_shutdown p || Chunk_empty (m_chunk p).

(** [swapChunk(otherChunk)]: the producer and the caller's chunk as the
    call leaves them, with what the call did. *)
Definition Producer_swapChunk (p : Producer) (otherChunk : Chunk)
  : blocking (outcome unit * Producer * Chunk) :=
  if Producer_swapWaitCondition p then
    if m_shutdown p then Done (Failed ClosedInstance, p, otherChunk)
    else Done (Returned tt,
               {| m_shutdown := m_shutdown p;
                  m_chunk := otherChunk;
                  m_distribution := m_distribution p;
                  m_engine := m_engine p |},
               m_chunk p)
  else Waiting.

(** [stop()], as far as the data goes: the flag is set under the lock. *)
Definition Producer_stop (p : Producer) : Producer :=
  {| m_shutdown := true;
     m_chunk := m_chunk p;
     m_distribution := m_distribution p;
     m_engine := m_engine p |}.

(** One turn of the [while (true)] loop of [run()]: [None] when the thread
    returns. *)
Definition Producer_run (p : Producer) : blocking (option Producer) :=
  if Producer_fillWaitCondition p then
    if m_shutdown p then Done None
    else
      let (c, s) := Chunk_fill Producer_generate (m_chunk p) (m_distribution p, m_engine p) in
      Done (Some {| m_shutdown := m_shutdown p;
                    m_chunk := c;
                    m_distribution := s.1;
                    m_engine := s.2 |})
  else Waiting.

(** What [create] does that the rest of the program can see, in order. *)
Inductive event : Set :=
| SeedDrawn (childSeed : Z)
| ThreadSpawned (childSeed : Z).

(** The lambda given to [std::ranges::generate] in [create]: one draw from
    the root engine, then the [Producer] constructor, whose last member
    initialiser starts the thread. *)
Definition Producer_create_one (distribution : DistributionT) (s : EngineT * list event)
  : Producer * (EngineT * list event) :=
  let (childSeed, rootEngine) := engine_call s.1 in
  (Producer_new distribution childSeed,
   (rootEngine, s.2 ++ [SeedDrawn childSeed; ThreadSpawned childSeed])).

(** What constructing worker [i] adds to that list. *)
Definition worker_events (rootEngine : EngineT) (i : nat) : list event :=
  [SeedDrawn (draw_nth engine_call rootEngine i);
   ThreadSpawned (draw_nth engine_call rootEngine i)].

Definition Producer_create_run (distribution : DistributionT) (seed : Z) (count : nat)
  : list Producer * (EngineT * list event) :=
  ranges_generate (Producer_create_one distribution)
    (repeat (None : option Producer) count) (engine_seed seed, []).

Definition Producer_create (distribution : DistributionT) (seed : Z) (count : nat)
  : list Producer :=
  (Producer_create_run distribution seed count).1.

Definition Producer_create_events (distribution : DistributionT) (seed : Z) (count : nat)
  : list event :=
  (Producer_create_run distribution seed count).2.2.

(** *** RngCache *)

(** [m_nextProducer] is an iterator into [m_producers]: its distance from
    [begin()], with [end()] at the length. *)
Record RngCache : Type := mkRngCache {
  m_activeChunk : Chunk;
  m_producers : list Producer;
  m_nextProducer : nat
}.

(** The private constructor. *)
Definition RngCache_new (distribution : DistributionT) (seed : Z) (threadCount : nat)
  : RngCache :=
  {| m_activeChunk := Chunk_new;
     m_producers := Producer_create distribution seed threadCount;
     m_nextProducer := 0 |}.

(** Conversion of an unsigned value to [seed_type]. *)
Definition to_seed_type (z : Z) : Z := z mod 2 ^ (8 * Z.of_nat seedSize).

(** [randomSeed()].  [deviceSize] is [sizeof(Device::result_type)] and
    [device i] is what call number [i] of the [std::random_device] returns. *)
Definition randomSeed (deviceSize : nat) (device : nat -> Z) : Z :=
  let iterations := (seedSize - 1) / deviceSize in
  fold_left
    (fun seed i =>
       to_seed_type (Z.lor (Z.shiftl seed (Z.of_nat deviceSize)) (device (i + 1))))
    (seq 0 iterations)
    (to_seed_type (device 0)).

(** What the public constructor reads from the machine. *)
Record Machine : Type := mkMachine {
  deviceSize : nat;
  device : nat -> Z;
  hardware_concurrency : nat
}.

(** The public constructor. *)
Definition RngCache_ctor (m : Machine) (distribution : DistributionT)
    (seed : option Z) (threadCount : option nat) : RngCache :=
  RngCache_new distribution
    (match seed with Some s => s | None => randomSeed (deviceSize m) (device m) end)
    (match threadCount with Some n => n | None => hardware_concurrency m end).

(** [nextProducer()]: the position of the producer it returns a reference
    to, and the cache with the iterator moved on. *)
Definition RngCache_nextProducer (c : RngCache) : outcome (nat * RngCache) :=
  match m_producers c !! m_nextProducer c with
  | None => Failed OutOfRange
  | Some _ =>
      let it := m_nextProducer c + 1 in
      Returned (m_nextProducer c,
                {| m_activeChunk := m_activeChunk c;
                   m_producers := m_producers c;
                   m_nextProducer := if it =? length (m_producers c) then 0 else it |})
  end.

(** What a call of [generate()] comes to: the value, with the producer it
    swapped chunks with if it did.  Up to the wait inside [swapChunk] the
    call changes only what the consumer owns, so a call that has to wait is
    one that has not happened yet: it takes effect when its wait is over. *)
Inductive generated : Type :=
| GenWaiting
| GenFailed (f : failure)
| GenReturned (swapped : option nat) (v : result_type) (c : RngCache).

Definition RngCache_pop (swapped : option nat) (c : RngCache) : generated :=
  match Chunk_next (m_activeChunk c) with
  | Failed f => GenFailed f
  | Returned (v, chunk) =>
      GenReturned swapped v
        {| m_activeChunk := chunk;
           m_producers := m_producers c;
           m_nextProducer := m_nextProducer c |}
  end.

Definition RngCache_generate (c : RngCache) : generated :=
  if Chunk_empty (m_activeChunk c) then
    match RngCache_nextProducer c with
    | Failed f => GenFailed f
    | Returned (i, c1) =>
        match m_producers c1 !! i with
        | None => GenFailed OutOfRange
        | Some producer =>
            match Producer_swapChunk producer (m_activeChunk c1) with
            | Waiting => GenWaiting
            | Done (Failed f, _, _) => GenFailed f
            | Done (Returned _, producer', chunk) =>
                RngCache_pop (Some i)
                  {| m_activeChunk := chunk;
                     m_producers := <[i := producer']> (m_producers c1);
                     m_nextProducer := m_nextProducer c1 |}
            end
        end
    end
  else RngCache_pop None c.

(** *** The cache with its threads *)

(** The consumer thread calls [generate()] again and again; thread [i] of
    the pool runs the loop of producer [i].  [origin] is the producer the
    active chunk was last taken from, and [consumed] lists, oldest first,
    every value [generate()] has returned with the origin of its chunk. *)
Record System : Type := mkSystem {
  cache : RngCache;
  origin : option nat;
  consumed : list (option nat * result_type)
}.

Inductive action : Set :=
| Fill (i : nat)
| Generate.

(** One step of one thread; [None] when that thread cannot take it (it is
    waiting, it has returned, or the call failed). *)
Definition step (a : action) (s : System) : option System :=
  match a with
  | Fill i =>
      match m_producers (cache s) !! i with
      | None => None
      | Some p =>
          match Producer_run p with
          | Done (Some p') =>
              Some {| cache := {| m_activeChunk := m_activeChunk (cache s);
                                  m_producers := <[i := p']> (m_producers (cache s));
                                  m_nextProducer := m_nextProducer (cache s) |};
                      origin := origin s;
                      consumed := consumed s |}
          | _ => None
          end
      end
  | Generate =>
      match RngCache_generate (cache s) with
      | GenReturned swapped v c =>
          let o := match swapped with Some i => Some i | None => origin s end in
          Some {| cache := c; origin := o; consumed := consumed s ++ [(o, v)] |}
      | _ => None
      end
  end.

(** A schedule is the order in which the threads take their steps. *)
Fixpoint run (schedule : list action) (s : System) : option System :=
  match schedule with
  | [] => Some s
  | a :: rest =>
      match step a s with
      | Some s' => run rest s'
      | None => None
      end
  end.

Definition start (c : RngCache) : System :=
  {| cache := c; origin := None; consumed := [] |}.

(** *** The streams the claims speak of *)

(** The [i]-th value the root engine returns. *)
Definition subseed (seed : Z) (i : nat) : Z := draw_nth engine_call (engine_seed seed) i.

(** Worker [i] on its own: a copy of the distribution and a fresh engine
    seeded with the [i]-th sub-seed. *)
Definition worker_init (distribution : DistributionT) (seed : Z) (i : nat)
  : DistributionT * EngineT :=
  (distribution, engine_seed (subseed seed i)).

(** The first [n] values of [distribution(engine)] evaluated over and over. *)
Definition worker_stream (distribution : DistributionT) (seed : Z) (i n : nat)
  : list result_type :=
  draws Producer_generate n (worker_init distribution seed i).

(** Chunk number [m] of that stream: its values [m * CHUNK_SIZE] up to
    [(m + 1) * CHUNK_SIZE]. *)
Definition worker_chunk (distribution : DistributionT) (seed : Z) (i m : nat)
  : list result_type :=
  take CHUNK_SIZE (drop (m * CHUNK_SIZE) (worker_stream distribution seed i ((m + 1) * CHUNK_SIZE))).

(** [distribution(engine)] evaluated [n] times in a row on a distribution and
    an engine of one's own, each call on the two as the call before left
    them. *)
Fixpoint distribution_draws (n : nat) (distribution : DistributionT) (engine : EngineT)
  : list result_type :=
  match n with
  | O => []
  | S k =>
      let '(v, distribution', engine') := dist_call distribution engine in
      v :: distribution_draws k distribution' engine'
  end.

(** The values of [consumed] that came out of chunks of worker [i]. *)
Definition contributed (i : nat) (log : list (option nat * result_type)) : list result_type :=
  snd <$> filter (fun e => e.1 = Some i) log.

(** The seed the specification describes: every further draw is shifted in
    by the full bit-width of the entropy source, [8 * deviceSize]. *)
Definition seed_from_full_width_draws (deviceSize : nat) (device : nat -> Z) : Z :=
  let iterations := (seedSize - 1) / deviceSize in
  fold_left
    (fun seed i =>
       to_seed_type (Z.lor (Z.shiftl seed (8 * Z.of_nat deviceSize)) (device (i + 1))))
    (seq 0 iterations)
    (to_seed_type (device 0)).

(** No sub-seed is drawn once a thread has been spawned. *)
Fixpoint seeds_before_threads (log : list event) : bool :=
  match log with
  | [] => true
  | SeedDrawn _ :: rest => seeds_before_threads rest
  | ThreadSpawned _ :: rest =>
      forallb (fun e => match e with ThreadSpawned _ => true | SeedDrawn _ => false end) rest
  end.

End RngCache.

(** ** What holds of the cache and its threads at every moment *)

Section Invariant.
Context {T : Template}.
Variable distribution : DistributionT.
Variable seed : Z.
Variable N : nat.

(** Value number [n] of worker [i] on its own. *)
Definition worker_value (i n : nat) : result_type :=
  draw_nth Producer_generate (worker_init distribution seed i) n.

(** After [q] full rounds with the iterator at [r], the chunks the consumer
    has taken from worker [i]. *)
Definition taken (q r i : nat) : nat := q + (if decide (i < r) then 1 else 0).

(** A producer either holds a used-up chunk and has generated what was
    taken from it, or holds the next chunk of its stream, untouched. *)
Definition producer_ok (q r i : nat) (p : Producer) : Prop :=
  m_shutdown p = false
  /\ length (m_values (m_chunk p)) = CHUNK_SIZE
  /\ ((m_nextIndex (m_chunk p) = CHUNK_SIZE
       /\ (m_distribution p, m_engine p)
          = state_after Producer_generate (taken q r i * CHUNK_SIZE)
              (worker_init distribution seed i))
      \/ (m_nextIndex (m_chunk p) = 0
          /\ (m_distribution p, m_engine p)
             = state_after Producer_generate ((taken q r i + 1) * CHUNK_SIZE)
                 (worker_init distribution seed i)
          /\ m_values (m_chunk p)
             = worker_value i <$> seq (taken q r i * CHUNK_SIZE) CHUNK_SIZE)).

(** The active chunk is the initial one, or chunk [m] of the worker before
    the iterator, read up to the cursor. *)
Definition active_ok (q r : nat) (s : System) : Prop :=
  length (m_values (m_activeChunk (cache s))) = CHUNK_SIZE
  /\ ((origin s = None /\ q = 0 /\ r = 0
       /\ m_nextIndex (m_activeChunk (cache s)) = CHUNK_SIZE
       /\ consumed s = [])
      \/ exists j m,
           origin s = Some j /\ j < N /\ taken q r j = m + 1
           /\ (j + 1 = r \/ (j + 1 = N /\ r = 0))
           /\ m_values (m_activeChunk (cache s))
              = worker_value j <$> seq (m * CHUNK_SIZE) CHUNK_SIZE
           /\ m_nextIndex (m_activeChunk (cache s)) <= CHUNK_SIZE
           /\ length (consumed s)
              = (m * N + j) * CHUNK_SIZE + m_nextIndex (m_activeChunk (cache s))).

(** How many values of worker [i] have been returned. *)
Definition consumed_count (q r : nat) (s : System) (i : nat) : nat :=
  taken q r i * CHUNK_SIZE
  - (if decide (origin s = Some i)
     then CHUNK_SIZE - m_nextIndex (m_activeChunk (cache s)) else 0).

(** The worker and the value expected at position [k] (from 0) of the
    consumed sequence. *)
Definition expected_worker (k : nat) : nat := (k / CHUNK_SIZE) mod N.

Definition expected_value (k : nat) : result_type :=
  worker_value (expected_worker k) (k / CHUNK_SIZE / N * CHUNK_SIZE + k mod CHUNK_SIZE).

Definition log_ok (q r : nat) (s : System) : Prop :=
  (forall k e, consumed s !! k = Some e ->
     e = (Some (expected_worker k), expected_value k))
  /\ (forall i, i < N ->
        contributed i (consumed s)
        = worker_stream distribution seed i (consumed_count q r s i)).

Definition invariant (s : System) : Prop :=
  exists q,
    length (m_producers (cache s)) = N
    /\ m_nextProducer (cache s) < N
    /\ (forall i p, m_producers (cache s) !! i = Some p ->
          producer_ok q (m_nextProducer (cache s)) i p)
    /\ active_ok q (m_nextProducer (cache s)) s
    /\ log_ok q (m_nextProducer (cache s)) s.
End Invariant.

(** ** The scenario of the specification

    A stand-in engine that counts and a distribution that returns successive
    integers from it: with root seed 0 the sub-seeds are 10, 20, 30, ..., and
    the worker seeded with [s] generates [s], [s + 1], [s + 2], ... *)

Module Scenario.

Definition counting_engine_call (e : Z) : Z * Z := ((10 * (e + 1))%Z, (e + 1)%Z).

Definition successor_dist_call (d : unit) (e : Z) : Z * unit * Z :=
  let (x, e') := counting_engine_call e in ((x / 10 - 1)%Z, d, e').

Definition template (chunkSize : nat) : Template :=
  {| result_type := Z;
     result_zero := 0%Z;
     EngineT := Z;
     engine_seed := fun s => s;
     engine_call := counting_engine_call;
     seedSize := 8;
     DistributionT := unit;
     dist_call := successor_dist_call;
     CHUNK_SIZE := chunkSize |}.

(** A distribution with a state of its own: it adds an offset that grows by
    100 with every call.  From offset 0 the worker seeded with 10 generates
    10, 111, 212, 313, ... *)
Definition drifting_dist_call (d : Z) (e : Z) : Z * Z * Z :=
  let (x, e') := counting_engine_call e in ((x / 10 - 1 + d)%Z, (d + 100)%Z, e').

Definition drifting_template (chunkSize : nat) : Template :=
  {| result_type := Z;
     result_zero := 0%Z;
     EngineT := Z;
     engine_seed := fun s => s;
     engine_call := counting_engine_call;
     seedSize := 8;
     DistributionT := Z;
     dist_call := drifting_dist_call;
     CHUNK_SIZE := chunkSize |}.

(** [std::mt19937_64] seeds with 64 bits; [unsigned int] has 4 bytes. *)
Definition machine (draw : nat -> Z) (cores : nat) : Machine :=
  {| deviceSize := 4; device := draw; hardware_concurrency := cores |}.

(** An entropy source that returns [0xFFFFFFFF] and then zeros. *)
Definition ones_then_zeros (i : nat) : Z :=
  match i with
  | O => 4294967295%Z
  | S _ => 0%Z
  end.

Definition two_workers : RngCache (T := template 4) :=
  RngCache_ctor (T := template 4) (machine (fun _ => 0%Z) 8) tt (Some 0%Z) (Some 2).

(** Two orders of the same nine calls of [generate()]: the workers refill as
    early as they can, or only when the consumer is about to need them. *)
Definition eager : list action :=
  [Fill 1; Fill 0; Generate; Fill 0; Generate; Generate; Generate;
   Generate; Fill 1; Generate; Generate; Generate; Generate].

Definition on_demand : list action :=
  [Fill 0; Generate; Generate; Generate; Generate;
   Fill 1; Generate; Generate; Generate; Generate;
   Fill 0; Generate].

(** A producer whose chunk is full, and a used-up chunk to swap for it. *)
Definition full_producer : Producer (T := template 4) :=
  mkProducer (T := template 4) false
    (mkChunk (T := template 4) 0 [10; 11; 12; 13]%Z) tt 14%Z.

Definition used_chunk : Chunk (T := template 4) :=
  mkChunk (T := template 4) 4 [20; 21; 22; 23]%Z.

Definition half_read_chunk : Chunk (T := template 4) :=
  mkChunk (T := template 4) 1 [10; 11; 12; 13]%Z.

End Scenario.


(** ** Further operations *)

(** [n] consecutive calls of [nextProducer()], collecting the positions of
    the producers they return. *)
Fixpoint RngCache_nextProducer_n {T : Template} (n : nat) (c : RngCache)
  : outcome (list nat * RngCache) :=
  match n with
  | O => Returned ([], c)
  | S k =>
      match RngCache_nextProducer c with
      | Returned (i, c1) =>
          match RngCache_nextProducer_n k c1 with
          | Returned (rest, c2) => Returned (i :: rest, c2)
          | Failed f => Failed f
          end
      | Failed f => Failed f
      end
  end.

(** The seed of the baseline engine in [main()] of [performance_test.cpp]:
    [static_cast<uint64_t>(device()) << 32 | static_cast<uint64_t>(device())],
    as a function of the values of the two operands, in [uint64_t]. *)
Definition baseline_seed (high low : Z) : Z :=
  Z.lor (Z.shiftl (high mod 2 ^ 64) 32 mod 2 ^ 64) (low mod 2 ^ 64).

(** States of a cache with four slots a chunk, to evaluate the operations
    on: the consumer has used up its chunk and the pool holds one worker with
    a full chunk, that worker after [stop()], or a fresh worker and a stopped
    one. *)
Module Cases.

Definition one_full_worker : RngCache (T := Scenario.template 4) :=
  mkRngCache (T := Scenario.template 4) Scenario.used_chunk [Scenario.full_producer] 0.

Definition one_stopped_worker : RngCache (T := Scenario.template 4) :=
  mkRngCache (T := Scenario.template 4) Scenario.used_chunk
    [Producer_stop Scenario.full_producer] 0.

Definition fresh_and_stopped : RngCache (T := Scenario.template 4) :=
  mkRngCache (T := Scenario.template 4) Scenario.used_chunk
    [Producer_new (T := Scenario.template 4) tt 10; Producer_stop Scenario.full_producer] 0.

(** The iterator stands on a full worker, after a fresh one. *)
Definition one_and_fresh : RngCache (T := Scenario.template 4) :=
  mkRngCache (T := Scenario.template 4) Scenario.used_chunk
    [Producer_new (T := Scenario.template 4) tt 10; Scenario.full_producer] 1.

(** Every worker stopped, with three values left in the active chunk. *)
Definition stopped_with_leftovers : RngCache (T := Scenario.template 4) :=
  mkRngCache (T := Scenario.template 4) Scenario.half_read_chunk
    [Producer_stop Scenario.full_producer] 0.

End Cases.

(** ** Generators *)

Section GenerateFacts.
Context {St A : Type}.
Variable gen : St -> A * St.

Lemma state_after_add (a b : nat) (s : St) :
  state_after gen (a + b) s = state_after gen b (state_after gen a s).
Proof. revert s. induction a as [|a IH]; intros s; simpl; [done | apply IH]. Qed.

Lemma state_after_succ (n : nat) (s : St) :
  state_after gen (S n) s = snd (gen (state_after gen n s)).
Proof.
  replace (S n) with (n + 1) by lia. by rewrite state_after_add.
Qed.

Lemma draw_nth_add (a b : nat) (s : St) :
  draw_nth gen (state_after gen a s) b = draw_nth gen s (a + b).
Proof. unfold draw_nth. by rewrite state_after_add. Qed.

Lemma draws_length (n : nat) (s : St) : length (draws gen n s) = n.
Proof. unfold draws. by rewrite length_fmap, length_seq. Qed.

Lemma draws_lookup (n i : nat) (s : St) :
  i < n -> draws gen n s !! i = Some (draw_nth gen s i).
Proof.
  intros Hi. unfold draws. rewrite list_lookup_fmap, lookup_seq_lt by done. done.
Qed.

Lemma draws_succ (n : nat) (s : St) :
  draws gen (S n) s = draws gen n s ++ [draw_nth gen s n].
Proof. unfold draws. by rewrite seq_S, fmap_app. Qed.

Lemma draws_cons (n : nat) (s : St) :
  draws gen (S n) s = fst (gen s) :: draws gen n (snd (gen s)).
Proof.
  unfold draws. simpl. f_equal.
  rewrite <- seq_shift, <- list_fmap_compose. by apply list_fmap_ext.
Qed.

(** Values [a], [a + 1], ... of a stream are the first values of the
    stream that starts after [a] calls. *)
Lemma draws_from (a n : nat) (s : St) :
  draws gen n (state_after gen a s) = draw_nth gen s <$> seq a n.
Proof.
  unfold draws. apply list_eq. intros i.
  rewrite !list_lookup_fmap.
  destruct (decide (i < n)) as [Hi|Hi].
  - rewrite !lookup_seq_lt by done. simpl. by rewrite draw_nth_add.
  - rewrite !lookup_seq_ge by lia. done.
Qed.

(** [std::ranges::generate] calls the generator once for each element, in
    order, and nothing else. *)
Lemma ranges_generate_draws {B : Type} (range : list B) (s : St) :
  ranges_generate gen range s
  = (draws gen (length range) s, state_after gen (length range) s).
Proof.
  revert s. induction range as [|b range IH]; intros s; [done|].
  cbn [ranges_generate length]. destruct (gen s) as [v s1] eqn:Hg.
  rewrite IH, draws_cons. cbn [state_after]. rewrite Hg. reflexivity.
Qed.
End GenerateFacts.

(** ** Chunk *)

Section ChunkFacts.
Context {T : Template}.

Lemma Chunk_empty_true (c : Chunk) :
  Chunk_empty c = true <-> m_nextIndex c = length (m_values c).
Proof. unfold Chunk_empty. apply Nat.eqb_eq. Qed.

Lemma Chunk_empty_false (c : Chunk) :
  Chunk_empty c = false <-> m_nextIndex c <> length (m_values c).
Proof. unfold Chunk_empty. apply Nat.eqb_neq. Qed.

Lemma Chunk_full_true (c : Chunk) : Chunk_full c = true <-> m_nextIndex c = 0.
Proof. unfold Chunk_full. apply Nat.eqb_eq. Qed.

Lemma Chunk_next_at (c : Chunk) (v : result_type) :
  m_values c !! m_nextIndex c = Some v ->
  Chunk_next c
  = Returned (v, {| m_nextIndex := m_nextIndex c + 1; m_values := m_values c |}).
Proof.
  intros Hv. unfold Chunk_next.
  pose proof (lookup_lt_Some _ _ _ Hv) as Hlt.
  destruct (Chunk_empty c) eqn:He.
  - apply Chunk_empty_true in He. lia.
  - by rewrite Hv.
Qed.

(** [n] calls of [next] that stay inside the array return its next [n]
    slots and leave the cursor [n] further. *)
Lemma Chunk_next_n_take (n : nat) (c : Chunk) :
  m_nextIndex c + n <= length (m_values c) ->
  Chunk_next_n n c
  = Returned (take n (drop (m_nextIndex c) (m_values c)),
              {| m_nextIndex := m_nextIndex c + n; m_values := m_values c |}).
Proof.
  revert c. induction n as [|n IH]; intros [i vs] Hn; simpl in *.
  - rewrite Nat.add_0_r. by rewrite take_0.
  - destruct (lookup_lt_is_Some_2 vs i) as [v Hv]; [lia|].
    rewrite (Chunk_next_at {| m_nextIndex := i; m_values := vs |} v Hv).
    rewrite IH by (simpl; lia). simpl.
    rewrite (drop_S vs v i Hv). simpl.
    replace (i + 1 + n) with (i + S n) by lia.
    replace (i + 1) with (S i) by lia. reflexivity.
Qed.

Lemma Chunk_fill_draws {St : Type} (generator : St -> result_type * St) (c : Chunk) (s : St) :
  Chunk_fill generator c s
  = ({| m_nextIndex := 0; m_values := draws generator (length (m_values c)) s |},
     state_after generator (length (m_values c)) s).
Proof. unfold Chunk_fill. by rewrite ranges_generate_draws. Qed.

(** C8: [fill(generator)] calls the generator once for each of the
    [CHUNK_SIZE] slots, in index order (slot [j] holds what call number [j]
    returned and the generator is left as after [CHUNK_SIZE] calls), and
    sets the cursor to 0.  The chunk is then full and not empty; fewer than
    [CHUNK_SIZE] calls of [next] leave it not empty, and exactly
    [CHUNK_SIZE] calls return the generated values in order and leave it
    empty. *)
Theorem Chunk_fill_then_next {St : Type} (generator : St -> result_type * St)
    (c : Chunk) (s : St) :
  length (m_values c) = CHUNK_SIZE ->
  1 <= CHUNK_SIZE ->
  let filled := (Chunk_fill generator c s).1 in
  m_values filled = draws generator CHUNK_SIZE s
  /\ (forall j, j < CHUNK_SIZE -> m_values filled !! j = Some (draw_nth generator s j))
  /\ (Chunk_fill generator c s).2 = state_after generator CHUNK_SIZE s
  /\ m_nextIndex filled = 0
  /\ Chunk_full filled = true
  /\ Chunk_empty filled = false
  /\ (forall n, n < CHUNK_SIZE ->
        exists c', Chunk_next_n n filled = Returned (take n (m_values filled), c')
                   /\ Chunk_empty c' = false)
  /\ (exists c', Chunk_next_n CHUNK_SIZE filled = Returned (draws generator CHUNK_SIZE s, c')
                 /\ Chunk_empty c' = true).
Proof.
  intros Hlen Hpos filled. subst filled.
  rewrite Chunk_fill_draws, Hlen. cbn [fst snd m_values m_nextIndex].
  repeat split.
  - intros j Hj. by apply draws_lookup.
  - apply Chunk_empty_false. cbn [m_nextIndex m_values]. rewrite draws_length. lia.
  - intros n Hn. eexists. split.
    + rewrite Chunk_next_n_take by (cbn [m_nextIndex m_values]; rewrite draws_length; lia). cbn [m_nextIndex m_values]. rewrite drop_0. reflexivity.
    + apply Chunk_empty_false. cbn [m_nextIndex m_values]. rewrite draws_length. lia.
  - eexists. split.
    + rewrite Chunk_next_n_take by (cbn [m_nextIndex m_values]; rewrite draws_length; lia). cbn [m_nextIndex m_values].
      rewrite drop_0, firstn_all2 by (rewrite draws_length; lia). reflexivity.
    + apply Chunk_empty_true. cbn [m_nextIndex m_values]. by rewrite draws_length.
Qed.

Lemma Chunk_next_empty (c : Chunk) :
  Chunk_empty c = true -> Chunk_next c = Failed AssertionFailed.
Proof. intros He. unfold Chunk_next. by rewrite He. Qed.

(** C9: on a chunk of [CHUNK_SIZE] slots with its cursor in
    [0, CHUNK_SIZE], not empty means that the cursor is below the capacity.
    Then [next()] passes its assertion, reads inside the array, returns the
    value at the cursor and moves the cursor by one, which keeps it at most
    the capacity.  On an empty chunk the call is outside its precondition:
    it does not return, the assertion fails. *)
Theorem Chunk_next_not_empty (c : Chunk) :
  length (m_values c) = CHUNK_SIZE ->
  m_nextIndex c <= CHUNK_SIZE ->
  (Chunk_empty c = false <-> m_nextIndex c < CHUNK_SIZE)
  /\ (m_nextIndex c < CHUNK_SIZE ->
      exists v,
        m_values c !! m_nextIndex c = Some v
        /\ Chunk_next c
           = Returned (v, {| m_nextIndex := m_nextIndex c + 1; m_values := m_values c |})
        /\ m_nextIndex c + 1 <= CHUNK_SIZE)
  /\ (m_nextIndex c = CHUNK_SIZE -> Chunk_next c = Failed AssertionFailed).
Proof.
  intros Hlen Hle. split; [|split].
  - rewrite Chunk_empty_false. lia.
  - intros Hlt.
    destruct (lookup_lt_is_Some_2 (m_values c) (m_nextIndex c)) as [v Hv]; [lia|].
    exists v. split; [done|]. split; [by apply Chunk_next_at | lia].
  - intros Heq. apply Chunk_next_empty, Chunk_empty_true. lia.
Qed.
End ChunkFacts.

(** ** Producer *)

Section ProducerFacts.
Context {T : Template}.

(** C7: [swapChunk] throws exactly when the shutdown flag is set at the end
    of its wait; the producer and the caller's chunk are then as they were.
    When the flag is not set and the producer's chunk is full, the two
    chunks change hands.  The call keeps waiting exactly when the flag is
    not set and the chunk is not full. *)
Theorem Producer_swapChunk_outcomes (p : Producer) (otherChunk : Chunk) :
  (forall o p' c',
      Producer_swapChunk p otherChunk = Done (o, p', c') ->
      (o = Failed ClosedInstance <-> m_shutdown p = true)
      /\ (o = Returned tt <-> m_shutdown p = false))
  /\ (m_shutdown p = true ->
      Producer_swapChunk p otherChunk = Done (Failed ClosedInstance, p, otherChunk))
  /\ (m_shutdown p = false -> Chunk_full (m_chunk p) = true ->
      exists p',
        Producer_swapChunk p otherChunk = Done (Returned tt, p', m_chunk p)
        /\ m_chunk p' = otherChunk)
  /\ (Producer_swapChunk p otherChunk = Waiting
      <-> m_shutdown p = false /\ Chunk_full (m_chunk p) = false).
Proof.
  unfold Producer_swapChunk, Producer_swapWaitCondition.
  destruct (m_shutdown p) eqn:Hs, (Chunk_full (m_chunk p)) eqn:Hf; cbn.
  all: repeat split; try done; try (intros; simplify_eq; done).
  all: try (intros; simplify_eq; eexists; split; reflexivity).
  all: try (intros [? ?]; done).
Qed.

(** C10: a [swapChunk] that succeeds changes, in the producer, only
    [m_chunk]: the engine, the distribution and the shutdown flag are as
    before, so the values the producer generates next are the same. *)
Theorem Producer_swapChunk_frame (p p' : Producer) (otherChunk c' : Chunk) :
  Producer_swapChunk p otherChunk = Done (Returned tt, p', c') ->
  m_engine p' = m_engine p
  /\ m_distribution p' = m_distribution p
  /\ m_shutdown p' = m_shutdown p
  /\ m_chunk p' = otherChunk
  /\ c' = m_chunk p
  /\ forall n,
       draws Producer_generate n (m_distribution p', m_engine p')
       = draws Producer_generate n (m_distribution p, m_engine p).
Proof.
  unfold Producer_swapChunk.
  destruct (Producer_swapWaitCondition p); [|done].
  destruct (m_shutdown p) eqn:Hs; [done|].
  intros [= <- <-]. cbn. done.
Qed.

Lemma Producer_stop_then_swapChunk (p : Producer) (otherChunk : Chunk) :
  Producer_swapChunk (Producer_stop p) otherChunk
  = Done (Failed ClosedInstance, Producer_stop p, otherChunk).
Proof. done. Qed.
End ProducerFacts.

(** ** Construction *)

Section CreateFacts.
Context {T : Template}.
Variable distribution : DistributionT.

Lemma Producer_create_one_state (n : nat) (rootEngine : EngineT) (log : list event) :
  state_after (Producer_create_one distribution) n (rootEngine, log)
  = (state_after engine_call n rootEngine,
     log ++ flat_map (worker_events rootEngine) (seq 0 n)).
Proof.
  induction n as [|n IH].
  - cbn. by rewrite app_nil_r.
  - rewrite !state_after_succ, IH.
    rewrite seq_S, flat_map_app, app_assoc. cbn [flat_map].
    rewrite app_nil_r, Nat.add_0_l.
    unfold Producer_create_one, worker_events, draw_nth. cbn [fst snd].
    by destruct (engine_call (state_after engine_call n rootEngine)).
Qed.

Lemma Producer_create_one_draw (n : nat) (rootEngine : EngineT) (log : list event) :
  draw_nth (Producer_create_one distribution) (rootEngine, log) n
  = Producer_new distribution (draw_nth engine_call rootEngine n).
Proof.
  unfold draw_nth at 1. rewrite Producer_create_one_state.
  unfold Producer_create_one, draw_nth. cbn [fst snd].
  by destruct (engine_call (state_after engine_call n rootEngine)).
Qed.

Lemma Producer_create_seq (seed : Z) (count : nat) :
  Producer_create distribution seed count
  = (fun i => Producer_new distribution (subseed seed i)) <$> seq 0 count.
Proof.
  unfold Producer_create, Producer_create_run.
  rewrite ranges_generate_draws, repeat_length. cbn [fst]. unfold draws.
  apply list_fmap_ext. intros i k _. apply Producer_create_one_draw.
Qed.

Lemma Producer_create_length (seed : Z) (count : nat) :
  length (Producer_create distribution seed count) = count.
Proof. by rewrite Producer_create_seq, length_fmap, length_seq. Qed.

Lemma Producer_create_lookup (seed : Z) (count i : nat) :
  i < count ->
  Producer_create distribution seed count !! i
  = Some (Producer_new distribution (subseed seed i)).
Proof.
  intros Hi. rewrite Producer_create_seq, list_lookup_fmap, lookup_seq_lt by done. done.
Qed.

(** C4 as the code has it: the root engine is built from the seed, worker
    [i] is constructed from the [i]-th value the root engine returns, and
    each sub-seed is drawn just before its worker is constructed and its
    thread started: the draws and the thread starts alternate. *)
Theorem Producer_create_subseeds (seed : Z) (count : nat) :
  length (Producer_create distribution seed count) = count
  /\ (forall i, i < count ->
        Producer_create distribution seed count !! i
        = Some (Producer_new distribution (draw_nth engine_call (engine_seed seed) i)))
  /\ Producer_create_events distribution seed count
     = flat_map
         (fun i => [SeedDrawn (draw_nth engine_call (engine_seed seed) i);
                    ThreadSpawned (draw_nth engine_call (engine_seed seed) i)])
         (seq 0 count).
Proof.
  split; [apply Producer_create_length|]. split.
  - intros i Hi. by apply Producer_create_lookup.
  - unfold Producer_create_events, Producer_create_run.
    rewrite ranges_generate_draws, repeat_length. cbn [fst snd].
    rewrite Producer_create_one_state. reflexivity.
Qed.

(** The public constructor passes the thread count on as it is. *)
Lemma RngCache_ctor_pool (m : Machine) (seed : option Z) (threadCount : option nat) :
  length (m_producers (RngCache_ctor m distribution seed threadCount))
  = match threadCount with Some n => n | None => hardware_concurrency m end.
Proof. unfold RngCache_ctor, RngCache_new. cbn. apply Producer_create_length. Qed.
End CreateFacts.

(** ** The cache and its threads *)

Ltac fields :=
  cbn [cache origin consumed m_producers m_nextProducer m_activeChunk
       m_values m_nextIndex m_shutdown m_chunk m_distribution m_engine] in *.

Lemma slot_div_mod (a o c : nat) :
  o < c -> (a * c + o) / c = a /\ (a * c + o) mod c = o.
Proof.
  intros Ho. split; symmetry.
  - apply (Nat.div_unique _ _ _ o); lia.
  - apply (Nat.mod_unique _ _ a); lia.
Qed.

Section SystemFacts.
Context {T : Template}.
Variable distribution : DistributionT.
Variable seed : Z.
Variable N : nat.
Hypothesis HN : 1 <= N.
Hypothesis HC : 1 <= CHUNK_SIZE.

Local Abbreviation invariant := (invariant distribution seed N).
Local Abbreviation producer_ok := (producer_ok distribution seed).
Local Abbreviation active_ok := (active_ok distribution seed N).
Local Abbreviation log_ok := (log_ok distribution seed N).
Local Abbreviation worker_value := (worker_value distribution seed).

Lemma invariant_start : invariant (start (RngCache_new distribution seed N)).
Proof.
  exists 0. cbn [start cache RngCache_new m_producers m_nextProducer].
  rewrite Producer_create_length. split; [done|]. split; [lia|]. split; [|split].
  - intros i p Hp.
    pose proof (lookup_lt_Some _ _ _ Hp) as Hi.
    rewrite Producer_create_length in Hi.
    rewrite Producer_create_lookup in Hp by done. injection Hp as <-.
    split; [done|]. split; [cbn; apply repeat_length|].
    left. split; [done|]. unfold taken. by destruct (decide (i < 0)); [lia|].
  - split; [cbn; apply repeat_length|]. left. done.
  - split; [intros k e Hk; done|].
    intros i Hi. unfold contributed, consumed_count, taken. cbn.
    by destruct (decide (i < 0)); [lia|].
Qed.

Lemma Producer_run_ok (q r i : nat) (p p' : Producer) :
  producer_ok q r i p ->
  Producer_run p = Done (Some p') ->
  producer_ok q r i p' /\ m_nextIndex (m_chunk p) = CHUNK_SIZE /\ m_nextIndex (m_chunk p') = 0.
Proof.
  intros (Hs & Hlen & Hcase). unfold Producer_run, Producer_fillWaitCondition.
  rewrite Hs. cbn [orb].
  destruct (Chunk_empty (m_chunk p)) eqn:He; [|done].
  apply Chunk_empty_true in He.
  rewrite Chunk_fill_draws, Hlen. intros [= <-].
  destruct Hcase as [[_ Hst]|[Hidx _]]; [|lia].
  split; [|split; [lia|done]].
  unfold producer_ok.
  cbn [m_shutdown m_chunk m_nextIndex m_values m_distribution m_engine].
  split; [done|]. split; [apply draws_length|]. right.
  rewrite Hst, <- state_after_add, <- surjective_pairing, draws_from.
  split; [done|]. split; [f_equal; lia|done].
Qed.

Lemma invariant_fill (i : nat) (s s' : System) :
  invariant s -> step (Fill i) s = Some s' -> invariant s'.
Proof.
  intros (q & Hlen & Hr & Hprod & Hact & Hlog). cbn [step].
  destruct (m_producers (cache s) !! i) as [p|] eqn:Hp; [|done].
  destruct (Producer_run p) as [|[p'|]] eqn:Hrun; try done.
  intros [= <-]. exists q.
  cbn [cache m_producers m_nextProducer m_activeChunk origin consumed].
  destruct (Producer_run_ok q _ i p p' (Hprod i p Hp) Hrun) as (Hp' & _ & _).
  split; [by rewrite length_insert|]. split; [done|]. split; [|done].
  intros k pk Hk. destruct (decide (k = i)) as [->|Hne].
  - rewrite list_lookup_insert_eq in Hk by (by eapply lookup_lt_Some).
    by injection Hk as <-.
  - rewrite list_lookup_insert_ne in Hk by done. by apply Hprod.
Qed.

Lemma taken_self (q r : nat) : taken q r r = q.
Proof. unfold taken. case_decide; lia. Qed.

Lemma taken_after_swap (q r k : nat) :
  r < N -> k < N ->
  taken (if r + 1 =? N then q + 1 else q) (if r + 1 =? N then 0 else r + 1) k
  = taken q r k + (if decide (k = r) then 1 else 0).
Proof.
  intros Hr Hk. unfold taken.
  destruct (r + 1 =? N) eqn:He; [apply Nat.eqb_eq in He | apply Nat.eqb_neq in He];
    repeat case_decide; lia.
Qed.

Lemma RngCache_pop_at (swapped : option nat) (c : RngCache) (v : result_type) :
  m_values (m_activeChunk c) !! m_nextIndex (m_activeChunk c) = Some v ->
  RngCache_pop swapped c
  = GenReturned swapped v
      {| m_activeChunk := {| m_nextIndex := m_nextIndex (m_activeChunk c) + 1;
                             m_values := m_values (m_activeChunk c) |};
         m_producers := m_producers c;
         m_nextProducer := m_nextProducer c |}.
Proof. intros Hv. unfold RngCache_pop. by rewrite (Chunk_next_at _ v Hv). Qed.

(** With a chunk that is not used up, the pop at the end of [generate()]
    returns the value at the cursor. *)
Lemma invariant_pop_value (s : System) :
  invariant s ->
  Chunk_empty (m_activeChunk (cache s)) = false ->
  exists j m,
    origin s = Some j /\ j < N
    /\ m_nextIndex (m_activeChunk (cache s)) < CHUNK_SIZE
    /\ length (consumed s)
       = (m * N + j) * CHUNK_SIZE + m_nextIndex (m_activeChunk (cache s))
    /\ m_values (m_activeChunk (cache s)) !! m_nextIndex (m_activeChunk (cache s))
       = Some (worker_value j (m * CHUNK_SIZE + m_nextIndex (m_activeChunk (cache s)))).
Proof.
  intros (q & _ & _ & _ & (Hlen & Hact) & _) He.
  apply Chunk_empty_false in He. rewrite Hlen in He.
  destruct Hact as [(_ & _ & _ & Hidx & _)|(j & m & Ho & Hj & _ & _ & Hvals & Hidx & Hcount)];
    [done|].
  exists j, m. repeat split; try done; [lia|].
  rewrite Hvals, list_lookup_fmap, lookup_seq_lt by lia. done.
Qed.

Lemma invariant_pop (s : System) (swapped swapped' : option nat) (v : result_type)
    (c' : RngCache) :
  invariant s ->
  Chunk_empty (m_activeChunk (cache s)) = false ->
  RngCache_pop swapped (cache s) = GenReturned swapped' v c' ->
  invariant {| cache := c'; origin := origin s; consumed := consumed s ++ [(origin s, v)] |}.
Proof.
  intros (q & HlenP & Hr & Hprod & (Hlen & Hact) & Hlog1 & Hlog2) He.
  apply Chunk_empty_false in He. rewrite Hlen in He.
  destruct Hact as [(_ & _ & _ & Hidx & _)|(j & m & Ho & Hj & Htaken & Hlast & Hvals & Hidx & Hcount)];
    [done|].
  set (i := m_nextIndex (m_activeChunk (cache s))) in *.
  assert (m_values (m_activeChunk (cache s)) !! i
          = Some (worker_value j (m * CHUNK_SIZE + i))) as Hv.
  { rewrite Hvals, list_lookup_fmap, lookup_seq_lt by lia. done. }
  rewrite (RngCache_pop_at _ _ _ Hv). intros [= _ <- <-].
  exists q. unfold active_ok, log_ok. fields.
  split; [done|]. split; [done|]. split; [done|]. split; [|split].
  - split; [done|]. right. exists j, m.
    fold i. rewrite length_app. cbn [length].
    repeat split; try done; lia.
  - intros k e Hk.
    destruct (decide (k < length (consumed s))) as [Hlt|Hge].
    + rewrite lookup_app_l in Hk by done. by apply Hlog1.
    + pose proof (lookup_lt_Some _ _ _ Hk) as Hk'.
      rewrite length_app in Hk'. cbn [length] in Hk'.
      assert (k = length (consumed s)) as -> by lia.
      rewrite list_lookup_middle in Hk by done. injection Hk as <-.
      rewrite Ho, Hcount. unfold expected_value, expected_worker.
      destruct (slot_div_mod (m * N + j) i CHUNK_SIZE) as [-> ->]; [lia|].
      destruct (slot_div_mod m j N) as [-> ->]; [lia|]. done.
  - intros k Hk. unfold contributed.
    rewrite filter_app, fmap_app. fold (contributed k (consumed s)).
    rewrite Hlog2 by done. unfold consumed_count. fields. fold i. rewrite Ho.
    destruct (decide (k = j)) as [->|Hne].
    + rewrite filter_cons_True by done. rewrite filter_nil. cbn [fmap list_fmap snd].
      rewrite !decide_True by done.
      replace (taken q (m_nextProducer (cache s)) j * CHUNK_SIZE - (CHUNK_SIZE - (i + 1)))
        with (S (m * CHUNK_SIZE + i)) by lia.
      replace (taken q (m_nextProducer (cache s)) j * CHUNK_SIZE - (CHUNK_SIZE - i))
        with (m * CHUNK_SIZE + i) by lia.
      unfold worker_stream. rewrite draws_succ. done.
    + rewrite filter_cons_False by (cbn; congruence). rewrite filter_nil.
      rewrite !decide_False by congruence. cbn. by rewrite app_nil_r.
Qed.

Lemma invariant_swap (s : System) (i : nat) (c1 : RngCache) (p p' : Producer)
    (chunk : Chunk) :
  invariant s ->
  Chunk_empty (m_activeChunk (cache s)) = true ->
  RngCache_nextProducer (cache s) = Returned (i, c1) ->
  m_producers c1 !! i = Some p ->
  Producer_swapChunk p (m_activeChunk c1) = Done (Returned tt, p', chunk) ->
  invariant {| cache := {| m_activeChunk := chunk;
                           m_producers := <[i := p']> (m_producers c1);
                           m_nextProducer := m_nextProducer c1 |};
               origin := Some i;
               consumed := consumed s |}.
Proof.
  intros (q & HlenP & Hr & Hprod & (Hlen & Hact) & Hlog1 & Hlog2) He Hnext Hp Hswap.
  apply Chunk_empty_true in He. rewrite Hlen in He.
  unfold RngCache_nextProducer in Hnext.
  destruct (m_producers (cache s) !! m_nextProducer (cache s)) as [p0|] eqn:Hpr; [|done].
  injection Hnext as <- <-. fields. rewrite Hpr in Hp. injection Hp as ->.
  set (r := m_nextProducer (cache s)) in *.
  destruct (Hprod r p Hpr) as (Hs & HlenC & Hcase).
  unfold Producer_swapChunk, Producer_swapWaitCondition in Hswap.
  rewrite Hs in Hswap. cbn [orb] in Hswap.
  destruct (Chunk_full (m_chunk p)) eqn:Hf; [|done].
  injection Hswap as <- <-. apply Chunk_full_true in Hf.
  destruct Hcase as [[Hidx _]|(_ & Hst & Hvals)]; [lia|].
  rewrite taken_self in Hst, Hvals.
  exists (if r + 1 =? N then q + 1 else q).
  unfold active_ok, log_ok, consumed_count. fields. rewrite HlenP.
  split; [by rewrite length_insert|].
  split; [destruct (r + 1 =? N) eqn:E; [lia | apply Nat.eqb_neq in E; lia]|].
  split; [|split; [|split]].
  - intros k pk Hk. pose proof (lookup_lt_Some _ _ _ Hk) as Hlt.
    rewrite length_insert, HlenP in Hlt.
    destruct (decide (k = r)) as [->|Hne].
    + rewrite list_lookup_insert_eq in Hk by lia. injection Hk as <-.
      unfold producer_ok. fields. rewrite taken_after_swap, taken_self by done.
      rewrite decide_True by done.
      split; [done|]. split; [done|]. left. done.
    + rewrite list_lookup_insert_ne in Hk by done.
      specialize (Hprod k pk Hk). unfold producer_ok in *.
      rewrite taken_after_swap by done. rewrite decide_False by done.
      by rewrite Nat.add_0_r.
  - split; [done|]. right. exists r, q.
    rewrite taken_after_swap, taken_self by done. rewrite decide_True by done.
    split; [done|]. split; [done|]. split; [done|].
    split; [destruct (r + 1 =? N) eqn:E; [apply Nat.eqb_eq in E | apply Nat.eqb_neq in E]; lia|].
    split; [done|]. split; [lia|]. rewrite Hf, Nat.add_0_r.
    destruct Hact as [(_ & -> & Hr0 & _ & ->)|(j & m & _ & Hj & Htaken & Hlast & _ & _ & ->)].
    { fold r in Hr0. rewrite Hr0. cbn. lia. }
    rewrite He. unfold taken in Htaken.
    destruct Hlast as [Hl|[Hl Hr0]]; case_decide; lia.
  - done.
  - intros k Hk. rewrite Hlog2 by done. f_equal.
    unfold consumed_count. rewrite taken_after_swap by done. rewrite Hf, He.
    destruct (decide (k = r)) as [->|Hne].
    + rewrite (decide_True (P := Some r = Some r)) by done.
      rewrite taken_self. case_decide; lia.
    + rewrite (decide_False (P := Some r = Some k)) by congruence. case_decide; lia.
Qed.

Lemma RngCache_pop_swapped (swapped swapped' : option nat) (c c' : RngCache)
    (v : result_type) :
  RngCache_pop swapped c = GenReturned swapped' v c' -> swapped' = swapped.
Proof.
  unfold RngCache_pop. destruct (Chunk_next (m_activeChunk c)) as [[v0 ch]|]; [|done].
  by intros [= -> _ _].
Qed.

Lemma invariant_generate (s s' : System) :
  invariant s -> step Generate s = Some s' -> invariant s'.
Proof.
  intros Hinv. cbn [step].
  destruct (RngCache_generate (cache s)) as [| |swapped v c] eqn:Hg; try done.
  intros [= <-]. unfold RngCache_generate in Hg.
  destruct (Chunk_empty (m_activeChunk (cache s))) eqn:He.
  - destruct (RngCache_nextProducer (cache s)) as [[i c1]|] eqn:Hn; [|done].
    destruct (m_producers c1 !! i) as [p|] eqn:Hp; [|done].
    destruct (Producer_swapChunk p (m_activeChunk c1)) as [|[[[[]|] p'] chunk]] eqn:Hsw;
      try done.
    pose proof (RngCache_pop_swapped _ _ _ _ _ Hg) as ->.
    pose proof (invariant_swap s i c1 p p' chunk Hinv He Hn Hp Hsw) as Hinv1.
    refine (invariant_pop _ _ _ _ _ Hinv1 _ Hg). fields.
    destruct Hinv1 as (_ & _ & _ & _ & (Hlen & _) & _). fields.
    unfold Producer_swapChunk in Hsw.
    destruct (Producer_swapWaitCondition p) eqn:Hw; [|done].
    unfold Producer_swapWaitCondition in Hw.
    destruct (m_shutdown p); [done|]. cbn [orb] in Hw.
    injection Hsw as _ <-. apply Chunk_full_true in Hw.
    apply Chunk_empty_false. lia.
  - pose proof (RngCache_pop_swapped _ _ _ _ _ Hg) as ->.
    exact (invariant_pop _ _ _ _ _ Hinv He Hg).
Qed.

Lemma invariant_step (a : action) (s s' : System) :
  invariant s -> step a s = Some s' -> invariant s'.
Proof.
  destruct a as [i|]; [apply invariant_fill | apply invariant_generate].
Qed.

Lemma invariant_run (schedule : list action) (s s' : System) :
  invariant s -> run schedule s = Some s' -> invariant s'.
Proof.
  revert s. induction schedule as [|a rest IH]; intros s Hinv; cbn [run].
  - by intros [= <-].
  - destruct (step a s) as [s1|] eqn:Hstep; [|done].
    apply IH. by eapply invariant_step.
Qed.

(** Every state the cache and its threads can reach from construction. *)
Lemma invariant_reachable (schedule : list action) (s : System) :
  run schedule (start (RngCache_new distribution seed N)) = Some s -> invariant s.
Proof. apply invariant_run, invariant_start. Qed.

Lemma step_generate_length (s s' : System) :
  step Generate s = Some s' -> length (consumed s') = S (length (consumed s)).
Proof.
  cbn [step]. destruct (RngCache_generate (cache s)); try done.
  intros [= <-]. fields. rewrite length_app. cbn. lia.
Qed.

Lemma generate_returns_fast (s : System) :
  invariant s ->
  Chunk_empty (m_activeChunk (cache s)) = false ->
  is_Some (step Generate s).
Proof.
  intros Hinv He. destruct (invariant_pop_value s Hinv He) as (j & m & _ & _ & _ & _ & Hv).
  cbn [step]. unfold RngCache_generate. rewrite He, (RngCache_pop_at _ _ _ Hv). done.
Qed.

Lemma generate_returns_swap (s : System) (p : Producer) :
  invariant s ->
  Chunk_empty (m_activeChunk (cache s)) = true ->
  m_producers (cache s) !! m_nextProducer (cache s) = Some p ->
  m_nextIndex (m_chunk p) = 0 ->
  is_Some (step Generate s).
Proof.
  intros (q & _ & _ & Hprod & _) He Hp Hidx.
  destruct (Hprod _ p Hp) as (Hs & Hlen & _).
  cbn [step]. unfold RngCache_generate, RngCache_nextProducer. rewrite He, Hp.
  fields. rewrite Hp. unfold Producer_swapChunk, Producer_swapWaitCondition.
  rewrite Hs. cbn [orb]. rewrite (proj2 (Chunk_full_true _) Hidx).
  destruct (lookup_lt_is_Some_2 (m_values (m_chunk p)) 0) as [v Hv]; [lia|].
  rewrite (RngCache_pop_at (Some (m_nextProducer (cache s))) _ v)
    by (fields; by rewrite Hidx).
  done.
Qed.

Lemma fill_refills (s : System) (p : Producer) :
  invariant s ->
  m_producers (cache s) !! m_nextProducer (cache s) = Some p ->
  m_nextIndex (m_chunk p) = CHUNK_SIZE ->
  exists s' p',
    step (Fill (m_nextProducer (cache s))) s = Some s'
    /\ m_activeChunk (cache s') = m_activeChunk (cache s)
    /\ m_nextProducer (cache s') = m_nextProducer (cache s)
    /\ consumed s' = consumed s
    /\ m_producers (cache s') !! m_nextProducer (cache s) = Some p'
    /\ m_nextIndex (m_chunk p') = 0.
Proof.
  intros (q & _ & _ & Hprod & _) Hp Hidx.
  destruct (Hprod _ p Hp) as (Hs & Hlen & _).
  cbn [step]. rewrite Hp. unfold Producer_run, Producer_fillWaitCondition.
  rewrite Hs. cbn [orb].
  rewrite (proj2 (Chunk_empty_true _)) by lia.
  rewrite Chunk_fill_draws. eexists _, _. split; [reflexivity|]. fields.
  split; [done|]. split; [done|]. split; [done|]. split.
  - rewrite list_lookup_insert_eq by (by eapply lookup_lt_Some). reflexivity.
  - done.
Qed.

(** From every reachable state, at most one refill stands between the
    consumer and the next value. *)
Lemma progress (s : System) :
  invariant s ->
  exists schedule s',
    length schedule <= 2
    /\ run schedule s = Some s'
    /\ length (consumed s') = S (length (consumed s)).
Proof.
  intros Hinv.
  destruct (Chunk_empty (m_activeChunk (cache s))) eqn:He.
  - destruct Hinv as (q & HlenP & Hr & Hprod & Hrest).
    destruct (lookup_lt_is_Some_2 (m_producers (cache s)) (m_nextProducer (cache s)))
      as [p Hp]; [lia|].
    assert (invariant s) as Hinv by (exists q; done).
    destruct (Hprod _ p Hp) as (_ & _ & [[Hidx _]|[Hidx _]]).
    + destruct (fill_refills s p Hinv Hp Hidx)
        as (s1 & p' & Hfill & Hact & Hnext & Hcons & Hp' & Hidx').
      pose proof (invariant_fill _ _ _ Hinv Hfill) as Hinv1.
      destruct (generate_returns_swap s1 p' Hinv1) as [s' Hs']; try congruence.
      exists [Fill (m_nextProducer (cache s)); Generate], s'.
      cbn [run length]. rewrite Hfill, Hs'.
      split; [lia|]. split; [done|].
      rewrite (step_generate_length _ _ Hs'). congruence.
    + destruct (generate_returns_swap s p Hinv He Hp Hidx) as [s' Hs'].
      exists [Generate], s'. cbn [run length]. rewrite Hs'.
      split; [lia|]. split; [done|]. by apply step_generate_length.
  - destruct (generate_returns_fast s Hinv He) as [s' Hs'].
    exists [Generate], s'. cbn [run length]. rewrite Hs'.
    split; [lia|]. split; [done|]. by apply step_generate_length.
Qed.

(** In a reachable state [generate()] returns or waits: no assertion fails,
    no index is out of range and [swapChunk] does not throw. *)
Lemma generate_never_fails (s : System) (f : failure) :
  invariant s -> RngCache_generate (cache s) <> GenFailed f.
Proof.
  intros Hinv Hg.
  assert (~ is_Some (step Generate s)) as Hno.
  { cbn [step]. rewrite Hg. by intros [? ?]. }
  destruct (Chunk_empty (m_activeChunk (cache s))) eqn:He.
  - destruct Hinv as (q & HlenP & Hr & Hprod & Hrest).
    destruct (lookup_lt_is_Some_2 (m_producers (cache s)) (m_nextProducer (cache s)))
      as [p Hp]; [lia|].
    assert (invariant s) as Hinv by (exists q; done).
    destruct (Hprod _ p Hp) as (Hs & _ & [[Hidx _]|[Hidx _]]).
    + unfold RngCache_generate, RngCache_nextProducer in Hg. rewrite He, Hp in Hg.
      fields. rewrite Hp in Hg.
      unfold Producer_swapChunk, Producer_swapWaitCondition in Hg.
      rewrite Hs in Hg. cbn [orb] in Hg.
      assert (Chunk_full (m_chunk p) = false) as Hf.
      { unfold Chunk_full. apply Nat.eqb_neq. lia. }
      by rewrite Hf in Hg.
    + by apply Hno, (generate_returns_swap s p).
  - by apply Hno, generate_returns_fast.
Qed.

Lemma run_app (l1 l2 : list action) (s : System) :
  run (l1 ++ l2) s = run l1 s ≫= run l2.
Proof.
  revert s. induction l1 as [|a l1 IH]; intros s; cbn; [done|].
  destruct (step a s); [apply IH | done].
Qed.

(** Any number of calls of [generate()] return. *)
Lemma reaches (k : nat) :
  exists schedule s,
    run schedule (start (RngCache_new distribution seed N)) = Some s
    /\ length (consumed s) = k.
Proof.
  induction k as [|k (schedule & s & Hrun & Hk)].
  - exists [], (start (RngCache_new distribution seed N)). done.
  - destruct (progress s (invariant_reachable _ _ Hrun)) as (more & s' & _ & Hmore & Hlen).
    exists (schedule ++ more), s'. rewrite run_app, Hrun. cbn.
    split; [done | lia].
Qed.

Lemma worker_chunk_lookup (i m o : nat) :
  o < CHUNK_SIZE ->
  worker_chunk distribution seed i m !! o = Some (worker_value i (m * CHUNK_SIZE + o)).
Proof.
  intros Ho. unfold worker_chunk, worker_stream.
  rewrite lookup_take_lt, lookup_drop by done. by rewrite draws_lookup by lia.
Qed.

Lemma consumed_expected (schedule : list action) (s : System) (k : nat)
    (e : option nat * result_type) :
  run schedule (start (RngCache_new distribution seed N)) = Some s ->
  consumed s !! k = Some e ->
  e = (Some (expected_worker N k), expected_value distribution seed N k).
Proof.
  intros Hrun. destruct (invariant_reachable _ _ Hrun) as (q & _ & _ & _ & _ & Hlog & _).
  apply Hlog.
Qed.

Lemma contributed_stream (schedule : list action) (s : System) (i : nat) :
  i < N ->
  run schedule (start (RngCache_new distribution seed N)) = Some s ->
  contributed i (consumed s)
  = worker_stream distribution seed i (length (contributed i (consumed s))).
Proof.
  intros Hi Hrun.
  destruct (invariant_reachable _ _ Hrun) as (q & _ & _ & _ & _ & _ & Hlog).
  rewrite (Hlog i Hi) at 2. unfold worker_stream at 2. rewrite draws_length.
  by apply Hlog.
Qed.
End SystemFacts.

(** The iterator stays inside the pool whatever the chunk size. *)
Lemma step_iterator {T : Template} (a : action) (s s' : System) :
  step a s = Some s' ->
  length (m_producers (cache s')) = length (m_producers (cache s))
  /\ (m_nextProducer (cache s) < length (m_producers (cache s)) ->
      m_nextProducer (cache s') < length (m_producers (cache s'))).
Proof.
  destruct a as [i|]; cbn [step].
  - destruct (m_producers (cache s) !! i) as [p|]; [|done].
    destruct (Producer_run p) as [|[p'|]]; try done.
    intros [= <-]. fields. by rewrite length_insert.
  - destruct (RngCache_generate (cache s)) as [| |swapped v c] eqn:Hg; try done.
    intros [= <-]. fields. unfold RngCache_generate in Hg.
    assert (forall sw c0, RngCache_pop sw c0 = GenReturned swapped v c ->
              m_producers c = m_producers c0 /\ m_nextProducer c = m_nextProducer c0)
      as Hpop.
    { intros sw c0. unfold RngCache_pop.
      destruct (Chunk_next (m_activeChunk c0)) as [[v0 ch]|]; [|done].
      by intros [= _ _ <-]. }
    destruct (Chunk_empty (m_activeChunk (cache s))).
    + unfold RngCache_nextProducer in Hg.
      destruct (m_producers (cache s) !! m_nextProducer (cache s)) as [p0|]; [|done].
      fields.
      destruct (m_producers (cache s) !! m_nextProducer (cache s)) as [p|]; [|done].
      destruct (Producer_swapChunk p (m_activeChunk (cache s))) as [|[[[[]|] p'] chunk]];
        try done.
      destruct (Hpop _ _ Hg) as [-> ->]. fields.
      rewrite length_insert. split; [done|]. intros Hlt.
      destruct (_ =? _) eqn:E; [lia | apply Nat.eqb_neq in E; lia].
    + destruct (Hpop _ _ Hg) as [-> ->]. done.
Qed.

Lemma run_iterator {T : Template} (schedule : list action) (s s' : System) :
  run schedule s = Some s' ->
  m_nextProducer (cache s) < length (m_producers (cache s)) ->
  length (m_producers (cache s')) = length (m_producers (cache s))
  /\ m_nextProducer (cache s') < length (m_producers (cache s')).
Proof.
  revert s. induction schedule as [|a rest IH]; intros s; cbn [run].
  - by intros [= <-].
  - destruct (step a s) as [s1|] eqn:Hstep; [|done].
    intros Hrun Hlt. destruct (step_iterator _ _ _ Hstep) as [Hlen Hit].
    destruct (IH s1 Hrun (Hit Hlt)) as [Hlen' Hit']. split; [congruence|done].
Qed.

(** ** The consumed sequence *)

(** C1: with at least one worker and a chunk of at least one slot, whatever
    the order in which the threads run, the [k]-th value [generate()] returns
    (from 1) comes from worker [i = ((k - 1) / CHUNK_SIZE) mod N] and is value
    number [(k - 1) mod CHUNK_SIZE] of chunk number [(k - 1) / CHUNK_SIZE / N]
    of that worker's stream.  The call does return: in no reachable state
    does [generate()] fail, from every reachable state the consumer gets its
    next value after at most one refill, and so every number of calls is
    reached. *)
Theorem generate_round_robin {T : Template} (distribution : DistributionT) (seed : Z)
    (N : nat) :
  1 <= N ->
  1 <= CHUNK_SIZE ->
  (forall schedule s k e,
      run schedule (start (RngCache_new distribution seed N)) = Some s ->
      1 <= k ->
      consumed s !! (k - 1) = Some e ->
      e.1 = Some (((k - 1) / CHUNK_SIZE) mod N)
      /\ worker_chunk distribution seed
           (((k - 1) / CHUNK_SIZE) mod N) ((k - 1) / CHUNK_SIZE / N)
           !! ((k - 1) mod CHUNK_SIZE)
         = Some e.2)
  /\ (forall schedule s,
        run schedule (start (RngCache_new distribution seed N)) = Some s ->
        (forall f, RngCache_generate (cache s) <> GenFailed f)
        /\ exists more s',
             length more <= 2
             /\ run more s = Some s'
             /\ length (consumed s') = S (length (consumed s)))
  /\ (forall k,
        exists schedule s,
          run schedule (start (RngCache_new distribution seed N)) = Some s
          /\ length (consumed s) = k).
Proof.
  intros HN HC. split; [|split].
  - intros schedule s k e Hrun Hk He.
    rewrite (consumed_expected distribution seed N HN HC _ _ _ _ Hrun He). cbn [fst snd].
    split; [done|].
    rewrite (worker_chunk_lookup distribution seed N HN HC)
      by (apply Nat.mod_upper_bound; lia).
    done.
  - intros schedule s Hrun.
    pose proof (invariant_reachable distribution seed N HN HC schedule s Hrun) as Hinv.
    split.
    + intros f. by apply (generate_never_fails distribution seed N HN HC).
    + by apply (progress distribution seed N HN HC).
  - apply (reaches distribution seed N HN HC).
Qed.

(** The generator of the worker loop is [distribution(engine)] on the
    worker's own members: its first [n] values are those of the distribution
    called [n] times in a row. *)
Lemma Producer_generate_draws {T : Template} (n : nat) (distribution : DistributionT)
    (engine : EngineT) :
  draws Producer_generate n (distribution, engine)
  = distribution_draws n distribution engine.
Proof.
  revert distribution engine. induction n as [|n IH]; intros d e; [done|].
  rewrite draws_cons. cbn [distribution_draws].
  destruct (Producer_generate (d, e)) as [v [d' e']] eqn:Hg.
  unfold Producer_generate in Hg. cbn [fst snd] in Hg.
  destruct (dist_call d e) as [[v0 d0] e0]. injection Hg as <- <- <-.
  cbn [fst snd]. by rewrite IH.
Qed.

(** C2: whatever the order in which the threads run, the values that
    [generate()] has returned out of chunks of worker [i], in the order they
    were returned, are the first values of [distribution(engine)] evaluated
    over and over on a copy of the distribution and a fresh engine seeded
    with the [i]-th sub-seed, each call on the distribution and the engine
    as the call before left them: none is skipped and none comes twice. *)
Theorem worker_contributes_its_stream {T : Template} (distribution : DistributionT)
    (seed : Z) (N : nat) :
  1 <= CHUNK_SIZE ->
  forall schedule s i,
    i < N ->
    run schedule (start (RngCache_new distribution seed N)) = Some s ->
    contributed i (consumed s)
    = distribution_draws (length (contributed i (consumed s)))
        distribution (engine_seed (subseed seed i)).
Proof.
  intros HC schedule s i Hi Hrun.
  assert (1 <= N) as HN by lia.
  rewrite <- Producer_generate_draws.
  exact (contributed_stream distribution seed N HN HC schedule s i Hi Hrun).
Qed.

(** C3: two caches constructed with the same distribution, seed and worker
    count, on whatever machines and under whatever schedules, agree on the
    values they return: the first [n] values of the one are the first [n]
    values of the other. *)
Theorem generate_deterministic {T : Template} (m1 m2 : Machine)
    (distribution : DistributionT) (seed : Z) (N : nat) :
  1 <= N ->
  1 <= CHUNK_SIZE ->
  forall schedule1 schedule2 s1 s2 n,
    run schedule1 (start (RngCache_ctor m1 distribution (Some seed) (Some N))) = Some s1 ->
    run schedule2 (start (RngCache_ctor m2 distribution (Some seed) (Some N))) = Some s2 ->
    n <= length (consumed s1) ->
    n <= length (consumed s2) ->
    take n (consumed s1) = take n (consumed s2).
Proof.
  intros HN HC schedule1 schedule2 s1 s2 n Hrun1 Hrun2 Hn1 Hn2.
  apply list_eq. intros k. rewrite !lookup_take.
  case_decide as Hk; [|done].
  destruct (lookup_lt_is_Some_2 (consumed s1) k) as [e1 He1]; [lia|].
  destruct (lookup_lt_is_Some_2 (consumed s2) k) as [e2 He2]; [lia|].
  rewrite He1, He2.
  rewrite (consumed_expected distribution seed N HN HC _ _ _ _ Hrun1 He1).
  rewrite (consumed_expected distribution seed N HN HC _ _ _ _ Hrun2 He2).
  done.
Qed.

(** C6 as the code has it: the pool has as many workers as the caller asked
    for, or as the hardware query reports when the caller gave no count; the
    number is used as it is.  With zero the pool is empty and the first
    [generate()] has no worker to select; with one or more the iterator of
    [nextProducer] always stands on a worker. *)
Theorem RngCache_ctor_worker_count {T : Template} (m : Machine)
    (distribution : DistributionT) (seed : option Z) (threadCount : option nat) :
  length (m_producers (RngCache_ctor m distribution seed threadCount))
  = match threadCount with Some n => n | None => hardware_concurrency m end
  /\ (match threadCount with Some n => n | None => hardware_concurrency m end = 0 ->
      RngCache_generate (RngCache_ctor m distribution seed threadCount)
      = GenFailed OutOfRange)
  /\ (1 <= match threadCount with Some n => n | None => hardware_concurrency m end ->
      forall schedule s,
        run schedule (start (RngCache_ctor m distribution seed threadCount)) = Some s ->
        is_Some (m_producers (cache s) !! m_nextProducer (cache s))).
Proof.
  pose proof (RngCache_ctor_pool distribution m seed threadCount) as Hlen.
  split; [done|]. split.
  - intros Hzero. rewrite Hzero in Hlen. apply length_zero_iff_nil in Hlen.
    unfold RngCache_generate, RngCache_nextProducer. rewrite Hlen.
    cbn [RngCache_ctor RngCache_new m_activeChunk m_nextProducer].
    rewrite (proj2 (Chunk_empty_true Chunk_new)) by (cbn; by rewrite repeat_length).
    done.
  - intros Hpos schedule s Hrun.
    destruct (run_iterator schedule _ s Hrun) as [_ Hit].
    { cbn [start cache]. rewrite Hlen. cbn [RngCache_ctor RngCache_new m_nextProducer]. lia. }
    by apply lookup_lt_is_Some_2.
Qed.

(** ** The seed from the entropy source *)

Lemma lor_below (a b n : Z) :
  (0 <= n -> 0 <= a < 2 ^ n -> 0 <= b < 2 ^ n -> 0 <= Z.lor a b < 2 ^ n)%Z.
Proof.
  intros Hn Ha Hb.
  assert (0 <= Z.lor a b)%Z as Hnn by (apply Z.lor_nonneg; lia).
  split; [done|].
  destruct (Z.eq_dec (Z.lor a b) 0%Z) as [->|Hne]; [lia|].
  assert (0 < n)%Z as Hpos.
  { destruct (Z.eq_dec n 0%Z) as [->|]; [|lia].
    assert (a = 0 /\ b = 0)%Z as [-> ->] by lia. done. }
  apply Z.log2_lt_pow2; [lia|]. rewrite Z.log2_lor by lia.
  apply Z.max_lub_lt.
  - destruct (Z.eq_dec a 0%Z) as [->|]; [done|]. apply Z.log2_lt_pow2; lia.
  - destruct (Z.eq_dec b 0%Z) as [->|]; [done|]. apply Z.log2_lt_pow2; lia.
Qed.

(** X16: With an 8-byte seed and a 4-byte entropy source the loop runs once and
    shifts the first draw by 4 bits, the size in bytes: the seed stays below
    [2 ^ 36] whatever the source returns. *)
Lemma randomSeed_8_4 {T : Template} (device : nat -> Z) :
  seedSize = 8 ->
  (forall i, 0 <= device i < 2 ^ 32)%Z ->
  randomSeed 4 device = Z.lor (Z.shiftl (device 0) 4) (device 1)
  /\ (0 <= randomSeed 4 device < 2 ^ 36)%Z.
Proof.
  intros Hsize Hdev. unfold randomSeed, to_seed_type. rewrite Hsize.
  change ((8 - 1) / 4) with 1. cbn [seq fold_left Nat.add].
  change (8 * Z.of_nat 8)%Z with 64%Z. change (Z.of_nat 4) with 4%Z.
  pose proof (Hdev 0) as H0. pose proof (Hdev 1) as H1.
  rewrite (Z.mod_small (device 0%nat)) by lia.
  assert (0 <= Z.shiftl (device 0%nat) 4 < 2 ^ 36)%Z as Hshift.
  { rewrite Z.shiftl_mul_pow2 by lia. lia. }
  pose proof (lor_below (Z.shiftl (device 0%nat) 4) (device 1%nat) 36) as Hlor.
  rewrite Z.mod_small by lia. split; [done | lia].
Qed.

(** C5 at an input where it fails: [std::mt19937_64] takes a 64-bit seed
    and the entropy source returns 32-bit words.  When it returns
    [0xFFFFFFFF] and then [0], [randomSeed()] is [0xFFFFFFFF0]: the first
    draw was shifted by 4 bits, not by 32, and bits 36 to 63 of the seed are
    not filled.  Shifting by the full width gives [0xFFFFFFFF00000000]. *)
Theorem randomSeed_shifts_by_bytes :
  randomSeed (T := Scenario.template 4) 4 Scenario.ones_then_zeros
  = 68719476720%Z
  /\ seed_from_full_width_draws (T := Scenario.template 4) 4
       Scenario.ones_then_zeros
     = 18446744069414584320%Z
  /\ Z.testbit
       (randomSeed (T := Scenario.template 4) 4 Scenario.ones_then_zeros)
       63
     = false
  /\ Z.testbit
       (seed_from_full_width_draws (T := Scenario.template 4) 4
          Scenario.ones_then_zeros)
       63
     = true.
Proof. repeat split; vm_compute; reflexivity. Qed.

(** ** The scenario of the specification, evaluated *)

(** Worker 0 generates 10, 11, 12, 13 and worker 1 generates 20, 21, 22, 23:
    calls 1 to 4 return the former, calls 5 to 8 the latter, and call 9
    returns the first value of the second chunk of worker 0. *)
Example scenario_nine_calls :
  exists s,
    run (T := Scenario.template 4) Scenario.on_demand (start Scenario.two_workers) = Some s
    /\ consumed s
       = [(Some 0, 10%Z); (Some 0, 11%Z); (Some 0, 12%Z); (Some 0, 13%Z);
          (Some 1, 20%Z); (Some 1, 21%Z); (Some 1, 22%Z); (Some 1, 23%Z);
          (Some 0, 14%Z)].
Proof. eexists. split; vm_compute; reflexivity. Qed.

(** The consumer waits while the worker it turns to has not filled its
    chunk. *)
Example scenario_consumer_waits :
  RngCache_generate Scenario.two_workers = GenWaiting.
Proof. vm_compute. reflexivity. Qed.

(** With [CHUNK_SIZE = 0] every chunk is full and empty at once, and the
    first [generate()] fails the assertion of [next()]. *)
Example scenario_chunk_size_zero :
  RngCache_generate (RngCache_new (T := Scenario.template 0) tt 0 1)
  = GenFailed AssertionFailed.
Proof. vm_compute. reflexivity. Qed.

(** ** The theorems at concrete inputs *)

Lemma generate_round_robin_witness :
  exists s,
    run Scenario.on_demand (start (RngCache_new (T := Scenario.template 4) tt 0 2)) = Some s
    /\ consumed s !! 8 = Some (Some 0, 14%Z)
    /\ worker_chunk (T := Scenario.template 4) tt 0 0 1 !! 0 = Some 14%Z.
Proof.
  eexists. split; [vm_compute; reflexivity|]. split; [reflexivity|].
  refine (proj2 (proj1 (generate_round_robin (T := Scenario.template 4) tt 0 2 _ _)
                   Scenario.on_demand _ 9 (Some 0, 14%Z) _ _ _)).
  - lia.
  - cbn. lia.
  - vm_compute. reflexivity.
  - lia.
  - reflexivity.
Defined.

Lemma worker_contributes_its_stream_witness :
  exists s,
    run [Fill 0; Generate; Generate; Generate; Generate; Fill 1; Generate; Fill 0]
      (start (RngCache_new (T := Scenario.drifting_template 4) 0%Z 0 2)) = Some s
    /\ contributed 0 (consumed s) = [10; 111; 212; 313]%Z
    /\ contributed 0 (consumed s)
       = distribution_draws (T := Scenario.drifting_template 4)
           (length (contributed 0 (consumed s))) 0%Z 10%Z.
Proof.
  eexists. split; [vm_compute; reflexivity|]. split; [reflexivity|].
  refine (worker_contributes_its_stream (T := Scenario.drifting_template 4) 0%Z 0 2 _
            [Fill 0; Generate; Generate; Generate; Generate; Fill 1; Generate; Fill 0]
            _ 0 _ _).
  - cbn. lia.
  - lia.
  - vm_compute. reflexivity.
Defined.

Lemma generate_deterministic_witness :
  exists s1 s2,
    run (T := Scenario.template 4) Scenario.eager
      (start (RngCache_ctor (T := Scenario.template 4) (Scenario.machine Scenario.ones_then_zeros 8) tt (Some 0%Z) (Some 2)))
    = Some s1
    /\ run (T := Scenario.template 4) Scenario.on_demand
         (start (RngCache_ctor (T := Scenario.template 4) (Scenario.machine (fun _ => 7%Z) 1) tt (Some 0%Z) (Some 2)))
       = Some s2
    /\ m_producers (cache s1) <> m_producers (cache s2)
    /\ take 9 (consumed s1) = take 9 (consumed s2).
Proof.
  eexists _, _. split; [vm_compute; reflexivity|]. split; [vm_compute; reflexivity|].
  split; [discriminate|].
  refine (generate_deterministic (T := Scenario.template 4)
            (Scenario.machine Scenario.ones_then_zeros 8)
            (Scenario.machine (fun _ => 7%Z) 1) tt 0 2 _ _
            Scenario.eager Scenario.on_demand _ _ 9 _ _ _ _).
  - lia.
  - cbn. lia.
  - vm_compute. reflexivity.
  - vm_compute. reflexivity.
  - cbn. lia.
  - cbn. lia.
Defined.

Lemma RngCache_ctor_worker_count_witness :
  exists s,
    run (T := Scenario.template 4) Scenario.on_demand
      (start (RngCache_ctor (T := Scenario.template 4) (Scenario.machine Scenario.ones_then_zeros 2) tt (Some 0%Z) None))
    = Some s
    /\ is_Some (m_producers (cache s) !! m_nextProducer (cache s)).
Proof.
  eexists. split; [vm_compute; reflexivity|].
  refine (proj2 (proj2 (RngCache_ctor_worker_count (T := Scenario.template 4)
                          (Scenario.machine Scenario.ones_then_zeros 2) tt (Some 0%Z) None))
            _ Scenario.on_demand _ _).
  - cbn. lia.
  - vm_compute. reflexivity.
Defined.

(** C6 fails when no count is given and the hardware query reports zero:
    the pool is empty, not of one worker, and the first [generate()]
    dereferences the end iterator. *)
Lemma zero_hardware_concurrency_empty_pool :
  ~ 1 <= length (m_producers
                   (RngCache_ctor (T := Scenario.template 4)
                      (Scenario.machine Scenario.ones_then_zeros 0) tt (Some 0%Z) None))
  /\ RngCache_generate
       (RngCache_ctor (T := Scenario.template 4)
          (Scenario.machine Scenario.ones_then_zeros 0) tt (Some 0%Z) None)
     = GenFailed OutOfRange.
Proof. split; [cbn; lia | reflexivity]. Qed.

Lemma Producer_create_subseeds_witness :
  Producer_create (T := Scenario.template 4) tt 0 2 !! 1
  = Some (Producer_new (T := Scenario.template 4) tt 20).
Proof.
  refine (proj1 (proj2 (Producer_create_subseeds (T := Scenario.template 4) tt 0 2)) 1 _).
  lia.
Defined.

(** C4 fails with two workers: the thread of worker 0 is started before the
    sub-seed of worker 1 is drawn. *)
Lemma thread_spawned_before_last_seed :
  Producer_create_events (T := Scenario.template 4) tt 0 2
  = [SeedDrawn 10; ThreadSpawned 10; SeedDrawn 20; ThreadSpawned 20]
  /\ seeds_before_threads (Producer_create_events (T := Scenario.template 4) tt 0 2)
     = false.
Proof. split; reflexivity. Qed.

Lemma Producer_swapChunk_outcomes_witness :
  (exists p',
      Producer_swapChunk Scenario.full_producer Scenario.used_chunk
      = Done (Returned tt, p', m_chunk Scenario.full_producer)
      /\ m_chunk p' = Scenario.used_chunk)
  /\ Producer_swapChunk (Producer_stop Scenario.full_producer) Scenario.used_chunk
     = Done (Failed ClosedInstance, Producer_stop Scenario.full_producer, Scenario.used_chunk).
Proof.
  split.
  - refine (proj1 (proj2 (proj2 (Producer_swapChunk_outcomes
                                   Scenario.full_producer Scenario.used_chunk))) _ _);
      reflexivity.
  - refine (proj1 (proj2 (Producer_swapChunk_outcomes
                            (Producer_stop Scenario.full_producer) Scenario.used_chunk)) _).
    reflexivity.
Defined.

Lemma Producer_swapChunk_frame_witness :
  exists p',
    Producer_swapChunk Scenario.full_producer Scenario.used_chunk
    = Done (Returned tt, p', m_chunk Scenario.full_producer)
    /\ m_engine p' = 14%Z
    /\ m_chunk p' = Scenario.used_chunk.
Proof.
  eexists. split; [reflexivity|].
  pose proof (Producer_swapChunk_frame Scenario.full_producer _ Scenario.used_chunk _
                eq_refl) as (He & _ & _ & Hc & _).
  split; [exact He | exact Hc].
Defined.

Lemma Chunk_fill_then_next_witness :
  exists c',
    Chunk_next_n 4
      (Chunk_fill (Producer_generate (T := Scenario.template 4)) Chunk_new (tt, 10%Z)).1
    = Returned ([10; 11; 12; 13]%Z, c')
    /\ Chunk_empty c' = true.
Proof.
  refine (proj2 (proj2 (proj2 (proj2 (proj2 (proj2 (proj2
            (Chunk_fill_then_next (T := Scenario.template 4)
               Producer_generate Chunk_new (tt, 10%Z) _ _)))))))).
  - reflexivity.
  - cbn. lia.
Defined.

Lemma Chunk_next_not_empty_witness :
  exists v,
    m_values Scenario.half_read_chunk !! 1 = Some v
    /\ Chunk_next Scenario.half_read_chunk
       = Returned (v, mkChunk (T := Scenario.template 4) 2 [10; 11; 12; 13]%Z)
    /\ 1 + 1 <= 4.
Proof.
  refine (proj1 (proj2 (Chunk_next_not_empty Scenario.half_read_chunk _ _)) _).
  - reflexivity.
  - cbn. lia.
  - cbn. lia.
Defined.

(** ** More about chunks *)

(** X1: Reading on: on a chunk with at least [a + b] slots left, [a + b]
    calls of [next()] are [a] calls followed by [b] calls; together they
    return the slots from the cursor on, in order, move the cursor by
    [a + b] and leave the array as it was. *)
Theorem Chunk_next_n_splits {T : Template} (a b : nat) (c : Chunk) :
  m_nextIndex c + a + b <= length (m_values c) ->
  exists vs ws c1 c2,
    Chunk_next_n a c = Returned (vs, c1)
    /\ Chunk_next_n b c1 = Returned (ws, c2)
    /\ Chunk_next_n (a + b) c = Returned (vs ++ ws, c2)
    /\ vs ++ ws = take (a + b) (drop (m_nextIndex c) (m_values c))
    /\ (forall k, k < a + b ->
          (vs ++ ws) !! k = m_values c !! (m_nextIndex c + k))
    /\ m_nextIndex c2 = m_nextIndex c + a + b
    /\ m_values c2 = m_values c.
Proof.
  intros Hle.
  rewrite (Chunk_next_n_take a c) by lia.
  rewrite (Chunk_next_n_take (a + b) c) by lia.
  eexists _, _, _, _. split; [reflexivity|].
  rewrite Chunk_next_n_take by (fields; lia). fields.
  split; [reflexivity|].
  assert (take a (drop (m_nextIndex c) (m_values c))
          ++ take b (drop (m_nextIndex c + a) (m_values c))
          = take (a + b) (drop (m_nextIndex c) (m_values c))) as Happ.
  { rewrite <- take_take_drop, drop_drop. done. }
  rewrite Happ.
  replace (m_nextIndex c + a + b) with (m_nextIndex c + (a + b)) by lia.
  split; [done|]. split; [done|].
  split; [|split; [fields; lia|done]].
  intros k Hk. by rewrite lookup_take_lt, lookup_drop.
Qed.

Lemma Chunk_next_n_splits_witness :
  exists vs ws c1 c2,
    Chunk_next_n 1 Scenario.half_read_chunk = Returned (vs, c1)
    /\ Chunk_next_n 2 c1 = Returned (ws, c2)
    /\ Chunk_next_n (1 + 2) Scenario.half_read_chunk = Returned (vs ++ ws, c2)
    /\ vs ++ ws = take (1 + 2) (drop 1 [10; 11; 12; 13]%Z)
    /\ (forall k, k < 1 + 2 -> (vs ++ ws) !! k = [10; 11; 12; 13]%Z !! (1 + k))
    /\ m_nextIndex c2 = 1 + 1 + 2
    /\ m_values c2 = [10; 11; 12; 13]%Z.
Proof.
  refine (Chunk_next_n_splits 1 2 Scenario.half_read_chunk _). cbn. lia.
Defined.

(** ** More about the iterator *)

Lemma RngCache_nextProducer_in_range {T : Template} (c : RngCache) :
  m_nextProducer c < length (m_producers c) ->
  RngCache_nextProducer c
  = Returned (m_nextProducer c,
              {| m_activeChunk := m_activeChunk c;
                 m_producers := m_producers c;
                 m_nextProducer := (m_nextProducer c + 1) mod length (m_producers c) |}).
Proof.
  intros Hlt. unfold RngCache_nextProducer.
  destruct (lookup_lt_is_Some_2 (m_producers c) (m_nextProducer c) Hlt) as [p ->].
  repeat f_equal.
  destruct (m_nextProducer c + 1 =? length (m_producers c)) eqn:E.
  - apply Nat.eqb_eq in E. rewrite E. by rewrite Nat.Div0.mod_same.
  - apply Nat.eqb_neq in E. rewrite Nat.mod_small; lia.
Qed.

(** X2: [nextProducer()] returns a producer exactly when the iterator stands
    inside the pool; the producer is the one under the iterator and the
    iterator stays inside the pool.  With the iterator at the end, as in an
    empty pool, the call dereferences the end iterator. *)
Theorem RngCache_nextProducer_bounds {T : Template} (c : RngCache) :
  (m_nextProducer c < length (m_producers c) ->
   exists c',
     RngCache_nextProducer c = Returned (m_nextProducer c, c')
     /\ m_nextProducer c' < length (m_producers c')
     /\ m_producers c' = m_producers c
     /\ m_activeChunk c' = m_activeChunk c)
  /\ (length (m_producers c) <= m_nextProducer c ->
      RngCache_nextProducer c = Failed OutOfRange).
Proof.
  split.
  - intros Hlt. rewrite RngCache_nextProducer_in_range by done.
    eexists. split; [reflexivity|]. fields.
    split; [apply Nat.mod_upper_bound; lia | done].
  - intros Hge. unfold RngCache_nextProducer. by rewrite lookup_ge_None_2.
Qed.

Lemma RngCache_nextProducer_bounds_witness :
  (exists c',
      RngCache_nextProducer Scenario.two_workers = Returned (0, c')
      /\ m_nextProducer c' < length (m_producers c')
      /\ m_producers c' = m_producers Scenario.two_workers
      /\ m_activeChunk c' = m_activeChunk Scenario.two_workers)
  /\ RngCache_nextProducer (RngCache_new (T := Scenario.template 4) tt 0 0)
     = Failed OutOfRange.
Proof.
  split.
  - refine (proj1 (RngCache_nextProducer_bounds Scenario.two_workers) _). cbn. lia.
  - refine (proj2 (RngCache_nextProducer_bounds
                     (RngCache_new (T := Scenario.template 4) tt 0 0)) _). cbn. lia.
Defined.

(** X3: Round robin: from an iterator inside the pool, [n] calls of
    [nextProducer()] return the producers at positions [r], [r + 1], ...,
    wrapping at the end of the pool, and touch nothing but the iterator. *)
Theorem RngCache_nextProducer_round_robin {T : Template} (n : nat) (c : RngCache) :
  m_nextProducer c < length (m_producers c) ->
  RngCache_nextProducer_n n c
  = Returned ((fun k => (m_nextProducer c + k) mod length (m_producers c)) <$> seq 0 n,
              {| m_activeChunk := m_activeChunk c;
                 m_producers := m_producers c;
                 m_nextProducer := (m_nextProducer c + n) mod length (m_producers c) |}).
Proof.
  revert c. induction n as [|n IH]; intros [a ps r] Hlt; fields.
  - cbn. by rewrite Nat.add_0_r, Nat.mod_small.
  - cbn [RngCache_nextProducer_n].
    rewrite RngCache_nextProducer_in_range by done. fields.
    rewrite IH by (fields; apply Nat.mod_upper_bound; lia). fields.
    cbn [seq fmap list_fmap]. rewrite <- fmap_S_seq, <- list_fmap_compose.
    rewrite (Nat.add_0_r r), (Nat.mod_small r) by done.
    f_equal. f_equal.
    + f_equal. apply list_fmap_ext. intros _ k _. cbn.
      rewrite Nat.Div0.add_mod_idemp_l. f_equal. lia.
    + f_equal. rewrite Nat.Div0.add_mod_idemp_l. f_equal. lia.
Qed.

Lemma RngCache_nextProducer_round_robin_witness :
  RngCache_nextProducer_n 5 Scenario.two_workers
  = Returned ([0; 1; 0; 1; 0],
              mkRngCache (T := Scenario.template 4)
                (m_activeChunk Scenario.two_workers)
                (m_producers Scenario.two_workers) 1).
Proof.
  refine (RngCache_nextProducer_round_robin 5 Scenario.two_workers _). cbn. lia.
Defined.

(** ** What a step leaves alone *)

Lemma RngCache_pop_producers {T : Template} (swapped swapped' : option nat)
    (c c' : RngCache) (v : result_type) :
  RngCache_pop swapped c = GenReturned swapped' v c' ->
  swapped' = swapped
  /\ m_producers c' = m_producers c
  /\ m_nextProducer c' = m_nextProducer c
  /\ m_values (m_activeChunk c') = m_values (m_activeChunk c)
  /\ m_nextIndex (m_activeChunk c') = m_nextIndex (m_activeChunk c) + 1.
Proof.
  unfold RngCache_pop, Chunk_next.
  destruct (Chunk_empty (m_activeChunk c)); [done|].
  destruct (m_values (m_activeChunk c) !! m_nextIndex (m_activeChunk c)); [|done].
  by intros [= <- _ <-].
Qed.

(** X4: [generate()] draws no random number: a call that returns leaves the
    engine, the distribution and the shutdown flag of every producer as they
    were, keeps the size of the pool, and changes the chunk of no producer
    but the one it swapped with. *)
Theorem RngCache_generate_frame {T : Template} (c c' : RngCache)
    (swapped : option nat) (v : result_type) :
  RngCache_generate c = GenReturned swapped v c' ->
  length (m_producers c') = length (m_producers c)
  /\ forall i p,
       m_producers c !! i = Some p ->
       exists p',
         m_producers c' !! i = Some p'
         /\ m_engine p' = m_engine p
         /\ m_distribution p' = m_distribution p
         /\ m_shutdown p' = m_shutdown p
         /\ (swapped <> Some i -> p' = p)
         /\ (swapped = Some i -> m_shutdown p = false /\ m_chunk p' = m_activeChunk c).
Proof.
  unfold RngCache_generate. intros Hg.
  destruct (Chunk_empty (m_activeChunk c)).
  - unfold RngCache_nextProducer in Hg.
    destruct (m_producers c !! m_nextProducer c) as [p0|] eqn:Hp0; [|done].
    fields. rewrite Hp0 in Hg. unfold Producer_swapChunk in Hg.
    destruct (Producer_swapWaitCondition p0); [|done].
    destruct (m_shutdown p0) eqn:Hs; [done|].
    destruct (RngCache_pop_producers _ _ _ _ _ Hg) as (-> & -> & _). fields.
    split; [by rewrite length_insert|].
    intros i p Hp. destruct (decide (i = m_nextProducer c)) as [->|Hne].
    + rewrite list_lookup_insert_eq by (by eapply lookup_lt_Some).
      rewrite Hp0 in Hp. injection Hp as <-.
      eexists. split; [reflexivity|]. fields. rewrite Hs.
      repeat split; done.
    + rewrite list_lookup_insert_ne by done. exists p.
      split; [done|]. split; [done|]. split; [done|]. split; [done|].
      split; [done|]. intros [= Heq]. by destruct Hne.
  - destruct (RngCache_pop_producers _ _ _ _ _ Hg) as (-> & -> & _).
    split; [done|]. intros i p Hp. exists p. repeat split; done.
Qed.

Lemma RngCache_generate_frame_witness :
  exists v c',
    RngCache_generate Cases.one_full_worker = GenReturned (Some 0) v c'
    /\ exists p',
         m_producers c' !! 0 = Some p'
         /\ m_engine p' = 14%Z
         /\ m_chunk p' = Scenario.used_chunk.
Proof.
  eexists _, _. split; [reflexivity|].
  destruct (proj2 (RngCache_generate_frame Cases.one_full_worker _ (Some 0) _ eq_refl)
              0 Scenario.full_producer eq_refl)
    as (p' & Hp' & He & _ & _ & _ & Hc).
  exists p'. split; [exact Hp'|]. split; [exact He|]. exact (proj2 (Hc eq_refl)).
Defined.

(** X5: A producer that has been stopped is frozen: whatever steps the consumer
    and the worker threads take, no thread fills its chunk, swaps it or
    advances its engine again. *)
Theorem stopped_producer_frozen {T : Template} (schedule : list action) (s s' : System)
    (i : nat) (p : Producer) :
  run schedule s = Some s' ->
  m_producers (cache s) !! i = Some p ->
  m_shutdown p = true ->
  m_producers (cache s') !! i = Some p.
Proof.
  revert s. induction schedule as [|a rest IH]; intros s; cbn [run].
  - by intros [= <-].
  - destruct (step a s) as [s1|] eqn:Hstep; [|done].
    intros Hrun Hp Hs. apply (IH s1 Hrun); [|done].
    destruct a as [j|]; cbn [step] in Hstep.
    + destruct (m_producers (cache s) !! j) as [pj|] eqn:Hpj; [|done].
      destruct (Producer_run pj) as [|[pj'|]] eqn:Hrunj; try done.
      injection Hstep as <-. fields.
      destruct (decide (j = i)) as [->|Hne]; [|by rewrite list_lookup_insert_ne].
      rewrite Hp in Hpj. injection Hpj as <-.
      unfold Producer_run in Hrunj. rewrite Hs in Hrunj.
      by destruct (Producer_fillWaitCondition p).
    + destruct (RngCache_generate (cache s)) as [| |swapped v c] eqn:Hg; try done.
      injection Hstep as <-. fields.
      destruct (proj2 (RngCache_generate_frame _ _ _ _ Hg) i p Hp)
        as (p' & Hp' & _ & _ & _ & Hsame & Hswap).
      destruct (decide (swapped = Some i)) as [Heq|Hneq].
      * destruct (Hswap Heq) as [Hfalse _]. congruence.
      * by rewrite (Hsame Hneq) in Hp'.
Qed.

Lemma stopped_producer_frozen_witness :
  exists s',
    run (T := Scenario.template 4) [Fill 0; Generate; Generate]
      (start Cases.fresh_and_stopped)
    = Some s'
    /\ m_producers (cache s') !! 1 = Some (Producer_stop Scenario.full_producer).
Proof.
  eexists. split; [vm_compute; reflexivity|].
  refine (stopped_producer_frozen [Fill 0; Generate; Generate]
            (start Cases.fresh_and_stopped) _ 1 _ _ _ _);
    [vm_compute; reflexivity | reflexivity | reflexivity].
Defined.

(** X6: When [generate()] has used up the active chunk and turns to a producer
    that has been stopped, the call throws the "closed instance" error; with
    values left in the active chunk it does not look at the producers. *)
Theorem RngCache_generate_closed {T : Template} (c : RngCache) (p : Producer) :
  m_producers c !! m_nextProducer c = Some p ->
  m_shutdown p = true ->
  (Chunk_empty (m_activeChunk c) = true ->
   RngCache_generate c = GenFailed ClosedInstance)
  /\ (m_nextIndex (m_activeChunk c) < length (m_values (m_activeChunk c)) ->
      exists v c',
        RngCache_generate c = GenReturned None v c'
        /\ m_values (m_activeChunk c) !! m_nextIndex (m_activeChunk c) = Some v
        /\ m_producers c' = m_producers c).
Proof.
  intros Hp Hs. split.
  - intros He. unfold RngCache_generate, RngCache_nextProducer. rewrite He, Hp.
    fields. rewrite Hp. unfold Producer_swapChunk, Producer_swapWaitCondition.
    by rewrite Hs.
  - intros Hlt. unfold RngCache_generate.
    rewrite (proj2 (Chunk_empty_false _)) by lia.
    destruct (lookup_lt_is_Some_2 _ _ Hlt) as [v Hv].
    rewrite (RngCache_pop_at None c v Hv). by eexists _, _.
Qed.

Lemma RngCache_generate_closed_witness :
  RngCache_generate Cases.one_stopped_worker = GenFailed ClosedInstance.
Proof.
  refine (proj1 (RngCache_generate_closed Cases.one_stopped_worker
                   (Producer_stop Scenario.full_producer) _ _) _); reflexivity.
Defined.

(** X7: A worker never overwrites a chunk it has not handed over: once the loop
    of [run()] has filled a chunk of at least one slot, its next turn waits. *)
Theorem Producer_run_once {T : Template} (p p' : Producer) :
  m_values (m_chunk p) <> [] ->
  Producer_run p = Done (Some p') ->
  Producer_run p' = Waiting
  /\ Chunk_full (m_chunk p') = true
  /\ length (m_values (m_chunk p')) = length (m_values (m_chunk p)).
Proof.
  intros Hne. unfold Producer_run at 1.
  destruct (Producer_fillWaitCondition p); [|done].
  destruct (m_shutdown p) eqn:Hs; [done|].
  rewrite Chunk_fill_draws. intros [= <-].
  unfold Producer_run, Producer_fillWaitCondition, Chunk_empty, Chunk_full. fields.
  rewrite draws_length. cbn [orb].
  destruct (m_values (m_chunk p)) as [|v vs]; [done|]. done.
Qed.

Lemma Producer_run_once_witness :
  exists p',
    Producer_run (Producer_new (T := Scenario.template 4) tt 10) = Done (Some p')
    /\ Producer_run p' = Waiting.
Proof.
  eexists. split; [reflexivity|].
  refine (proj1 (Producer_run_once (Producer_new (T := Scenario.template 4) tt 10) _ _ _)).
  - discriminate.
  - reflexivity.
Defined.

(** X8: Workers do not interfere: the refills of two different workers give the
    same state in either order. *)
Theorem Fill_commute {T : Template} (i j : nat) (s : System) :
  i <> j ->
  step (Fill i) s ≫= step (Fill j) = step (Fill j) s ≫= step (Fill i).
Proof.
  intros Hne. cbn [step].
  destruct (m_producers (cache s) !! i) as [pi|] eqn:Hi;
    destruct (m_producers (cache s) !! j) as [pj|] eqn:Hj; cbn.
  - destruct (Producer_run pi) as [|[pi'|]] eqn:Hri;
      destruct (Producer_run pj) as [|[pj'|]] eqn:Hrj; cbn; fields;
      rewrite ?list_lookup_insert_ne by done; rewrite ?Hi, ?Hj, ?Hri, ?Hrj; try done.
    by rewrite list_insert_insert_ne.
  - destruct (Producer_run pi) as [|[pi'|]]; cbn; fields;
      rewrite ?list_lookup_insert_ne by done; by rewrite ?Hj.
  - destruct (Producer_run pj) as [|[pj'|]]; cbn; fields;
      rewrite ?list_lookup_insert_ne by done; by rewrite ?Hi.
  - done.
Qed.

Lemma Fill_commute_witness :
  step (T := Scenario.template 4) (Fill 0) (start Scenario.two_workers) ≫= step (Fill 1)
  = step (T := Scenario.template 4) (Fill 1) (start Scenario.two_workers) ≫= step (Fill 0).
Proof.
  refine (Fill_commute (T := Scenario.template 4) 0 1 (start Scenario.two_workers) _).
  discriminate.
Defined.

Lemma RngCache_generate_insert {T : Template} (c : RngCache) (i : nat) (p' : Producer) :
  i <> m_nextProducer c ->
  RngCache_generate
    {| m_activeChunk := m_activeChunk c;
       m_producers := <[i := p']> (m_producers c);
       m_nextProducer := m_nextProducer c |}
  = match RngCache_generate c with
    | GenReturned swapped v c' =>
        GenReturned swapped v
          {| m_activeChunk := m_activeChunk c';
             m_producers := <[i := p']> (m_producers c');
             m_nextProducer := m_nextProducer c' |}
    | GenWaiting => GenWaiting
    | GenFailed f => GenFailed f
    end.
Proof.
  intros Hne. unfold RngCache_generate. fields.
  destruct (Chunk_empty (m_activeChunk c)).
  - unfold RngCache_nextProducer. fields.
    rewrite list_lookup_insert_ne, length_insert by done.
    destruct (m_producers c !! m_nextProducer c) as [p0|] eqn:Hp0; [|done].
    fields. rewrite list_lookup_insert_ne by done. rewrite Hp0.
    destruct (Producer_swapChunk p0 (m_activeChunk c)) as [|[[[[]|] p''] chunk]]; try done.
    unfold RngCache_pop. fields.
    destruct (Chunk_next chunk) as [[v ch]|]; [|done]. fields.
    by rewrite list_insert_insert_ne.
  - unfold RngCache_pop. fields.
    by destruct (Chunk_next (m_activeChunk c)) as [[v ch]|].
Qed.

Lemma RngCache_generate_lookup_other {T : Template} (c c' : RngCache) (i : nat)
    (swapped : option nat) (v : result_type) :
  i <> m_nextProducer c ->
  RngCache_generate c = GenReturned swapped v c' ->
  m_producers c' !! i = m_producers c !! i.
Proof.
  intros Hne. unfold RngCache_generate.
  destruct (Chunk_empty (m_activeChunk c)).
  - unfold RngCache_nextProducer.
    destruct (m_producers c !! m_nextProducer c) as [p0|] eqn:Hp0; [|done].
    fields. rewrite Hp0.
    destruct (Producer_swapChunk p0 (m_activeChunk c)) as [|[[[[]|] p''] chunk]]; try done.
    intros Hg. destruct (RngCache_pop_producers _ _ _ _ _ Hg) as (_ & -> & _). fields.
    by rewrite list_lookup_insert_ne.
  - intros Hg. by destruct (RngCache_pop_producers _ _ _ _ _ Hg) as (_ & -> & _).
Qed.

(** X9: The consumer and the workers it is not waiting for do not interfere: a
    refill by a worker other than the one under the iterator and a call of
    [generate()] give the same state in either order. *)
Theorem Fill_Generate_commute {T : Template} (i : nat) (s : System) :
  i <> m_nextProducer (cache s) ->
  step (Fill i) s ≫= step Generate = step Generate s ≫= step (Fill i).
Proof.
  intros Hne. cbn [step].
  destruct (RngCache_generate (cache s)) as [| |swapped v c'] eqn:Hg.
  - destruct (m_producers (cache s) !! i) as [pi|]; [|done].
    destruct (Producer_run pi) as [|[pi'|]]; try done.
    cbn. fields. by rewrite RngCache_generate_insert, Hg.
  - destruct (m_producers (cache s) !! i) as [pi|]; [|done].
    destruct (Producer_run pi) as [|[pi'|]]; try done.
    cbn. fields. by rewrite RngCache_generate_insert, Hg.
  - cbn. fields. rewrite (RngCache_generate_lookup_other _ _ _ _ _ Hne Hg).
    destruct (m_producers (cache s) !! i) as [pi|]; [|done].
    destruct (Producer_run pi) as [|[pi'|]]; try done.
    cbn. fields. by rewrite RngCache_generate_insert, Hg.
Qed.

Lemma Fill_Generate_commute_witness :
  exists s',
    step (T := Scenario.template 4) (Fill 0) (start Cases.one_and_fresh) ≫= step Generate
    = Some s'
    /\ step (T := Scenario.template 4) Generate (start Cases.one_and_fresh) ≫= step (Fill 0)
       = Some s'.
Proof.
  eexists. split; [vm_compute; reflexivity|].
  rewrite <- (Fill_Generate_commute (T := Scenario.template 4) 0 (start Cases.one_and_fresh));
    [vm_compute; reflexivity | discriminate].
Defined.

(** ** More about the states the cache reaches *)

Lemma run_pool_length {T : Template} (schedule : list action) (s s' : System) :
  run schedule s = Some s' ->
  length (m_producers (cache s')) = length (m_producers (cache s)).
Proof.
  revert s. induction schedule as [|a rest IH]; intros s; cbn [run].
  - by intros [= <-].
  - destruct (step a s) as [s1|] eqn:Hstep; [|done].
    intros Hrun. rewrite (IH s1 Hrun). by destruct (step_iterator a s s1 Hstep).
Qed.

Lemma reachable_pool_length {T : Template} (distribution : DistributionT) (seed : Z)
    (N : nat) (schedule : list action) (s : System) :
  run schedule (start (RngCache_new distribution seed N)) = Some s ->
  length (m_producers (cache s)) = N.
Proof.
  intros Hrun. rewrite (run_pool_length _ _ _ Hrun).
  cbn [start cache RngCache_new m_producers]. apply Producer_create_length.
Qed.

(** X10: The two waiters of a monitor take turns: in every reachable state a
    producer's chunk is either untouched since its refill or used up, so
    exactly one of the worker's loop and the consumer's [swapChunk] can go
    on, and [swapChunk] does not throw. *)
Theorem monitor_alternates {T : Template} (distribution : DistributionT) (seed : Z)
    (N : nat) (schedule : list action) (s : System) (i : nat) (p : Producer)
    (otherChunk : Chunk) :
  1 <= CHUNK_SIZE ->
  run schedule (start (RngCache_new distribution seed N)) = Some s ->
  m_producers (cache s) !! i = Some p ->
  (m_nextIndex (m_chunk p) = 0
   /\ Producer_run p = Waiting
   /\ exists p', Producer_swapChunk p otherChunk = Done (Returned tt, p', m_chunk p))
  \/ (m_nextIndex (m_chunk p) = CHUNK_SIZE
      /\ Producer_swapChunk p otherChunk = Waiting
      /\ exists p', Producer_run p = Done (Some p')).
Proof.
  intros HC Hrun Hp.
  pose proof (lookup_lt_Some _ _ _ Hp) as Hi.
  rewrite (reachable_pool_length distribution seed N schedule s Hrun) in Hi.
  assert (1 <= N) as HN by lia.
  destruct (invariant_reachable distribution seed N HN HC schedule s Hrun)
    as (q & _ & _ & Hprod & _).
  destruct (Hprod i p Hp) as (Hs & Hlen & [[Hidx _]|[Hidx _]]).
  - right. split; [done|].
    unfold Producer_swapChunk, Producer_swapWaitCondition, Producer_run,
      Producer_fillWaitCondition, Chunk_full, Chunk_empty.
    rewrite Hs, Hidx, Hlen, Nat.eqb_refl. cbn [orb].
    destruct (CHUNK_SIZE =? 0) eqn:E; [apply Nat.eqb_eq in E; lia|].
    split; [done|]. rewrite Chunk_fill_draws. by eexists.
  - left. split; [done|].
    unfold Producer_swapChunk, Producer_swapWaitCondition, Producer_run,
      Producer_fillWaitCondition, Chunk_full, Chunk_empty.
    rewrite Hs, Hidx, Hlen. cbn [orb]. rewrite Nat.eqb_refl.
    destruct (0 =? CHUNK_SIZE) eqn:E; [apply Nat.eqb_eq in E; lia|].
    split; [done|]. by eexists.
Qed.

Lemma monitor_alternates_witness :
  exists s p,
    run (T := Scenario.template 4) Scenario.on_demand
      (start (RngCache_new (T := Scenario.template 4) tt 0 2)) = Some s
    /\ m_producers (cache s) !! 1 = Some p
    /\ ((m_nextIndex (m_chunk p) = 0
         /\ Producer_run p = Waiting
         /\ exists p',
              Producer_swapChunk p Scenario.used_chunk
              = Done (Returned tt, p', m_chunk p))
        \/ (m_nextIndex (m_chunk p) = 4
            /\ Producer_swapChunk p Scenario.used_chunk = Waiting
            /\ exists p', Producer_run p = Done (Some p'))).
Proof.
  eexists _, _. split; [vm_compute; reflexivity|]. split; [reflexivity|].
  refine (monitor_alternates (T := Scenario.template 4) tt 0 2 Scenario.on_demand
            _ 1 _ Scenario.used_chunk _ _ _).
  - cbn. lia.
  - vm_compute. reflexivity.
  - reflexivity.
Defined.

(** X11: A worker runs ahead of the consumer by less than two chunks: in every
    reachable state its engine and distribution are as after a whole number
    of chunks of draws, at least as many as the values returned from it and
    at most [2 * CHUNK_SIZE] more. *)
Theorem bounded_read_ahead {T : Template} (distribution : DistributionT) (seed : Z)
    (N : nat) (schedule : list action) (s : System) (i : nat) (p : Producer) :
  1 <= CHUNK_SIZE ->
  run schedule (start (RngCache_new distribution seed N)) = Some s ->
  m_producers (cache s) !! i = Some p ->
  exists g,
    (m_distribution p, m_engine p)
    = state_after Producer_generate (g * CHUNK_SIZE)
        (distribution, engine_seed (subseed seed i))
    /\ length (contributed i (consumed s)) <= g * CHUNK_SIZE
    /\ g * CHUNK_SIZE <= length (contributed i (consumed s)) + 2 * CHUNK_SIZE.
Proof.
  intros HC Hrun Hp.
  pose proof (lookup_lt_Some _ _ _ Hp) as Hi.
  rewrite (reachable_pool_length distribution seed N schedule s Hrun) in Hi.
  assert (1 <= N) as HN by lia.
  destruct (invariant_reachable distribution seed N HN HC schedule s Hrun)
    as (q & _ & _ & Hprod & (_ & Hact) & _ & Hlog).
  rewrite (Hlog i Hi). unfold worker_stream. rewrite draws_length.
  unfold consumed_count.
  assert (m_nextIndex (m_activeChunk (cache s)) <= CHUNK_SIZE) as Hcur.
  { destruct Hact as [(_ & _ & _ & -> & _)|(j & m & _ & _ & _ & _ & _ & Hle & _)]; lia. }
  destruct (Hprod i p Hp) as (_ & _ & [[_ Hst]|(_ & Hst & _)]).
  - exists (taken q (m_nextProducer (cache s)) i). split; [exact Hst|].
    case_decide; lia.
  - exists (taken q (m_nextProducer (cache s)) i + 1). split; [exact Hst|].
    case_decide; lia.
Qed.

Lemma bounded_read_ahead_witness :
  exists s p,
    run (T := Scenario.template 4) [Fill 0; Generate; Fill 0]
      (start (RngCache_new (T := Scenario.template 4) tt 0 2)) = Some s
    /\ m_producers (cache s) !! 0 = Some p
    /\ exists g,
         (m_distribution p, m_engine p)
         = state_after (Producer_generate (T := Scenario.template 4)) (g * 4) (tt, 10%Z)
         /\ length (contributed 0 (consumed s)) <= g * 4
         /\ g * 4 <= length (contributed 0 (consumed s)) + 2 * 4.
Proof.
  eexists _, _. split; [vm_compute; reflexivity|]. split; [reflexivity|].
  refine (bounded_read_ahead (T := Scenario.template 4) tt 0 2
            [Fill 0; Generate; Fill 0] _ 0 _ _ _ _).
  - cbn. lia.
  - vm_compute. reflexivity.
  - reflexivity.
Defined.

Lemma RngCache_generate_cursor {T : Template} (c c' : RngCache) (swapped : option nat)
    (v : result_type) :
  RngCache_generate c = GenReturned swapped v c' ->
  1 <= m_nextIndex (m_activeChunk c').
Proof.
  unfold RngCache_generate. destruct (Chunk_empty (m_activeChunk c)).
  - destruct (RngCache_nextProducer c) as [[i c1]|]; [|done].
    destruct (m_producers c1 !! i) as [p|]; [|done].
    destruct (Producer_swapChunk p (m_activeChunk c1)) as [|[[[[]|] p'] chunk]]; try done.
    intros Hg. destruct (RngCache_pop_producers _ _ _ _ _ Hg) as (_ & _ & _ & _ & ->). lia.
  - intros Hg. destruct (RngCache_pop_producers _ _ _ _ _ Hg) as (_ & _ & _ & _ & ->). lia.
Qed.

(** Between calls the cursor of the active chunk is at least 1, once a value
    has been returned. *)
Lemma reachable_cursor {T : Template} (schedule : list action) (s0 s : System) :
  (consumed s0 = [] /\ origin s0 = None) ->
  run schedule s0 = Some s ->
  (consumed s = [] /\ origin s = None) \/ 1 <= m_nextIndex (m_activeChunk (cache s)).
Proof.
  intros Hnil.
  assert ((consumed s0 = [] /\ origin s0 = None)
          \/ 1 <= m_nextIndex (m_activeChunk (cache s0))) as H0 by (by left).
  clear Hnil. revert s0 H0. induction schedule as [|a rest IH]; intros s0 H0; cbn [run].
  - by intros [= <-].
  - destruct (step a s0) as [s1|] eqn:Hstep; [|done].
    apply IH. destruct a as [i|]; cbn [step] in Hstep.
    + destruct (m_producers (cache s0) !! i) as [p|]; [|done].
      destruct (Producer_run p) as [|[p'|]]; try done.
      by injection Hstep as <-.
    + destruct (RngCache_generate (cache s0)) as [| |swapped v c] eqn:Hg; try done.
      injection Hstep as <-. right. fields. by eapply RngCache_generate_cursor.
Qed.

(** X12: Hand-offs come exactly every [CHUNK_SIZE] calls: after [k] values the
    next call of [generate()] takes the path through [swapChunk] exactly
    when [k] is a multiple of [CHUNK_SIZE], and the iterator has moved
    [k / CHUNK_SIZE] times, rounded up, around the pool. *)
Theorem hand_off_every_chunk {T : Template} (distribution : DistributionT) (seed : Z)
    (N : nat) (schedule : list action) (s : System) :
  1 <= N ->
  1 <= CHUNK_SIZE ->
  run schedule (start (RngCache_new distribution seed N)) = Some s ->
  (Chunk_empty (m_activeChunk (cache s)) = true
   <-> length (consumed s) mod CHUNK_SIZE = 0)
  /\ m_nextProducer (cache s)
     = ((length (consumed s) + CHUNK_SIZE - 1) / CHUNK_SIZE) mod N.
Proof.
  intros HN HC Hrun.
  destruct (invariant_reachable distribution seed N HN HC schedule s Hrun)
    as (q & _ & Hr & _ & (Hlen & Hact) & _).
  rewrite Chunk_empty_true, Hlen.
  assert (forall k, k = 0 -> m_nextIndex (m_activeChunk (cache s)) = CHUNK_SIZE ->
            m_nextProducer (cache s) = 0 ->
            (m_nextIndex (m_activeChunk (cache s)) = CHUNK_SIZE <-> k mod CHUNK_SIZE = 0)
            /\ m_nextProducer (cache s) = ((k + CHUNK_SIZE - 1) / CHUNK_SIZE) mod N)
    as Hfresh.
  { intros k -> Hidx Hr0. rewrite Hr0, Nat.Div0.mod_0_l, Nat.div_small by lia.
    by rewrite Nat.Div0.mod_0_l. }
  destruct Hact as [(_ & _ & Hr0 & Hidx & Hnil)
                   |(j & m & Ho & Hj & Htaken & Hlast & _ & Hle & Hk)].
  { apply Hfresh; [by rewrite Hnil | done | done]. }
  destruct (reachable_cursor schedule (start (RngCache_new distribution seed N)) s
              (conj eq_refl eq_refl) Hrun)
    as [[_ Hnone]|Hpos]; [congruence|].
  set (cur := m_nextIndex (m_activeChunk (cache s))) in *.
  rewrite Hk. split.
  - destruct (decide (cur = CHUNK_SIZE)) as [Heq|Hneq].
    + split; [intros _|done].
      replace ((m * N + j) * CHUNK_SIZE + cur) with ((m * N + j + 1) * CHUNK_SIZE) by lia.
      apply Nat.Div0.mod_mul.
    + destruct (slot_div_mod (m * N + j) cur CHUNK_SIZE) as [_ ->]; [lia|]. lia.
  - replace ((m * N + j) * CHUNK_SIZE + cur + CHUNK_SIZE - 1)
      with ((m * N + j + 1) * CHUNK_SIZE + (cur - 1)) by lia.
    destruct (slot_div_mod (m * N + j + 1) (cur - 1) CHUNK_SIZE) as [-> _]; [lia|].
    destruct Hlast as [Hl|[Hl Hr0]].
    + replace (m * N + j + 1) with (m * N + m_nextProducer (cache s)) by lia.
      by destruct (slot_div_mod m (m_nextProducer (cache s)) N) as [_ ->].
    + replace (m * N + j + 1) with ((m + 1) * N + 0) by lia.
      destruct (slot_div_mod (m + 1) 0 N) as [_ ->]; [lia|]. done.
Qed.

Lemma hand_off_every_chunk_witness :
  exists s,
    run (T := Scenario.template 4) [Fill 0; Generate; Generate; Generate; Generate]
      (start (RngCache_new (T := Scenario.template 4) tt 0 2)) = Some s
    /\ (Chunk_empty (m_activeChunk (cache s)) = true <-> length (consumed s) mod 4 = 0)
    /\ m_nextProducer (cache s) = ((length (consumed s) + 4 - 1) / 4) mod 2.
Proof.
  eexists. split; [vm_compute; reflexivity|].
  refine (hand_off_every_chunk (T := Scenario.template 4) tt 0 2
            [Fill 0; Generate; Generate; Generate; Generate] _ _ _ _).
  - lia.
  - cbn. lia.
  - vm_compute. reflexivity.
Defined.

(** X13: [generate()] waits in one case only: the active chunk is used up and the
    worker under the iterator has not refilled the chunk it was given.  In
    every other reachable state the call returns a value; what the other
    workers are doing does not matter. *)
Theorem generate_waits_only_for_next_worker {T : Template} (distribution : DistributionT)
    (seed : Z) (N : nat) (schedule : list action) (s : System) :
  1 <= N ->
  1 <= CHUNK_SIZE ->
  run schedule (start (RngCache_new distribution seed N)) = Some s ->
  (RngCache_generate (cache s) = GenWaiting
   <-> Chunk_empty (m_activeChunk (cache s)) = true
       /\ exists p,
            m_producers (cache s) !! m_nextProducer (cache s) = Some p
            /\ m_nextIndex (m_chunk p) = CHUNK_SIZE)
  /\ (RngCache_generate (cache s) <> GenWaiting ->
      exists swapped v c', RngCache_generate (cache s) = GenReturned swapped v c').
Proof.
  intros HN HC Hrun.
  pose proof (invariant_reachable distribution seed N HN HC schedule s Hrun) as Hinv.
  assert (RngCache_generate (cache s) <> GenWaiting ->
          exists swapped v c', RngCache_generate (cache s) = GenReturned swapped v c')
    as Hret.
  { intros Hnw. destruct (RngCache_generate (cache s)) as [| f |swapped v c'] eqn:Hg.
    - done.
    - by destruct (generate_never_fails distribution seed N HN HC s f Hinv).
    - by eexists _, _, _. }
  split; [|exact Hret].
  destruct Hinv as (q & HlenP & Hr & Hprod & Hrest).
  assert (invariant distribution seed N s) as Hinv by (exists q; done).
  destruct (lookup_lt_is_Some_2 (m_producers (cache s)) (m_nextProducer (cache s)))
    as [p Hp]; [lia|].
  destruct (Hprod _ p Hp) as (Hs & Hlen & Hcase).
  split.
  - intros Hw.
    assert (~ is_Some (step Generate s)) as Hno.
    { cbn [step]. rewrite Hw. by intros [? ?]. }
    destruct (Chunk_empty (m_activeChunk (cache s))) eqn:He.
    + split; [done|]. exists p. split; [done|].
      destruct Hcase as [[Hidx _]|[Hidx _]]; [done|].
      destruct Hno. by apply (generate_returns_swap distribution seed N HN HC s p).
    + destruct Hno. by apply (generate_returns_fast distribution seed N HN HC).
  - intros (He & p' & Hp' & Hidx). rewrite Hp in Hp'. injection Hp' as <-.
    unfold RngCache_generate, RngCache_nextProducer. rewrite He, Hp. fields.
    rewrite Hp. unfold Producer_swapChunk, Producer_swapWaitCondition, Chunk_full.
    rewrite Hs, Hidx. cbn [orb].
    destruct (CHUNK_SIZE =? 0) eqn:E; [apply Nat.eqb_eq in E; lia | done].
Qed.

Lemma generate_waits_only_for_next_worker_witness :
  exists s,
    run (T := Scenario.template 4) [Fill 1]
      (start (RngCache_new (T := Scenario.template 4) tt 0 2)) = Some s
    /\ RngCache_generate (cache s) = GenWaiting.
Proof.
  eexists. split; [vm_compute; reflexivity|].
  refine (proj2 (proj1 (generate_waits_only_for_next_worker (T := Scenario.template 4)
                          tt 0 2 [Fill 1] _ _ _ _)) _).
  - lia.
  - cbn. lia.
  - vm_compute. reflexivity.
  - split; [reflexivity|]. eexists. split; reflexivity.
Defined.

(** ** More about the seed from the entropy source *)

Lemma to_seed_type_range {T : Template} (z : Z) :
  (0 <= to_seed_type z < 2 ^ (8 * Z.of_nat seedSize))%Z.
Proof. unfold to_seed_type. apply Z.mod_pos_bound. apply Z.pow_pos_nonneg; lia. Qed.

(** X14: Whatever the entropy source returns, [randomSeed()] is a value of
    [seed_type], and it depends on the first [1 + (seedSize - 1) / deviceSize]
    values of the source only: that many calls are made, and no more. *)
Theorem randomSeed_draws {T : Template} (deviceSize : nat) (device device' : nat -> Z) :
  (0 <= randomSeed deviceSize device < 2 ^ (8 * Z.of_nat seedSize))%Z
  /\ ((forall i, i <= (seedSize - 1) / deviceSize -> device i = device' i) ->
      randomSeed deviceSize device = randomSeed deviceSize device').
Proof.
  unfold randomSeed. split.
  - generalize (to_seed_type_range (device 0)).
    generalize (to_seed_type (device 0)) as seed0.
    induction (seq 0 ((seedSize - 1) / deviceSize)) as [|i l IH]; intros seed0 H0; [done|].
    cbn [fold_left]. apply IH, to_seed_type_range.
  - intros Hagree. rewrite (Hagree 0) by lia.
    assert (forall i, i ∈ seq 0 ((seedSize - 1) / deviceSize) ->
              device (i + 1) = device' (i + 1)) as Hl.
    { intros i Hi. apply elem_of_seq in Hi. apply Hagree. lia. }
    revert Hl. generalize (to_seed_type (device' 0)) as seed0.
    induction (seq 0 ((seedSize - 1) / deviceSize)) as [|i l IH]; intros seed0 Hl; [done|].
    cbn [fold_left]. rewrite (Hl i) by (by left).
    apply IH. intros k Hk. apply Hl. by right.
Qed.

Lemma randomSeed_draws_witness :
  randomSeed (T := Scenario.template 4) 4 Scenario.ones_then_zeros
  = randomSeed (T := Scenario.template 4) 4
      (fun i => match i with 0 => 4294967295%Z | 1 => 0%Z | _ => 77%Z end).
Proof.
  refine (proj2 (randomSeed_draws (T := Scenario.template 4) 4 Scenario.ones_then_zeros
                   (fun i => match i with 0 => 4294967295%Z | 1 => 0%Z | _ => 77%Z end))
            _).
  intros [|[|i]] Hi; [reflexivity | reflexivity | cbn in Hi; lia].
Defined.

(** X15: When the seed is no wider than a word of the entropy source the loop of
    [randomSeed()] does not run: the seed is the first word, cut to the
    width of [seed_type]. *)
Theorem randomSeed_single_draw {T : Template} (deviceSize : nat) (device : nat -> Z) :
  seedSize <= deviceSize ->
  1 <= seedSize ->
  randomSeed deviceSize device = (device 0%nat mod 2 ^ (8 * Z.of_nat seedSize))%Z.
Proof.
  intros Hle Hpos. unfold randomSeed. rewrite Nat.div_small by lia. reflexivity.
Qed.

(** ** The seed of the baseline in the performance test *)

Lemma shiftl_lor_add (high low : Z) :
  (0 <= high -> 0 <= low < 2 ^ 32 ->
   Z.lor (Z.shiftl high 32) low = high * 2 ^ 32 + low)%Z.
Proof.
  intros Hh Hl. rewrite Z.shiftl_mul_pow2 by lia.
  assert (Z.land (high * 2 ^ 32) low = 0%Z) as Hland.
  { apply Z.bits_inj'. intros n Hn.
    rewrite Z.land_spec, Z.bits_0.
    destruct (Z.lt_ge_cases n 32) as [Hlt|Hge].
    - rewrite Z.mul_pow2_bits_low by lia. done.
    - destruct (Z.eq_dec low 0%Z) as [->|Hne]; [by rewrite Z.bits_0, andb_false_r|].
      rewrite (Z.bits_above_log2 low n), andb_false_r; [done | lia |].
      assert (Z.log2 low < 32)%Z by (apply Z.log2_lt_pow2; lia). lia. }
  rewrite <- Z.lxor_lor by done. symmetry. by apply Z.add_nocarry_lxor.
Qed.

(** X17: The baseline seed of [main()] does what [randomSeed()] does not: for two
    32-bit words it is their concatenation, the left operand in bits 32 to
    63 and the right operand in bits 0 to 31, and both words can be read
    back from it. *)
Theorem baseline_seed_concatenates (high low : Z) :
  (0 <= high < 2 ^ 32 ->
   0 <= low < 2 ^ 32 ->
   baseline_seed high low = high * 2 ^ 32 + low
   /\ Z.shiftr (baseline_seed high low) 32 = high
   /\ Z.land (baseline_seed high low) (2 ^ 32 - 1) = low
   /\ 0 <= baseline_seed high low < 2 ^ 64)%Z.
Proof.
  intros Hh Hl.
  assert (baseline_seed high low = high * 2 ^ 32 + low)%Z as Heq.
  { unfold baseline_seed. rewrite (Z.mod_small high), (Z.mod_small low) by lia.
    rewrite (Z.mod_small (Z.shiftl high 32)) by (rewrite Z.shiftl_mul_pow2 by lia; lia).
    apply shiftl_lor_add; lia. }
  rewrite Heq. split; [done|]. split; [|split].
  - rewrite Z.shiftr_div_pow2 by lia. rewrite Z.div_add_l by lia.
    rewrite Z.div_small by lia. lia.
  - change (2 ^ 32 - 1)%Z with (Z.ones 32). rewrite Z.land_ones by lia.
    rewrite Z.add_comm, Z.mod_add by lia. apply Z.mod_small. lia.
  - lia.
Qed.

Lemma baseline_seed_concatenates_witness :
  (baseline_seed 4294967295 0 = 4294967295 * 2 ^ 32 + 0
   /\ Z.shiftr (baseline_seed 4294967295 0) 32 = 4294967295
   /\ Z.land (baseline_seed 4294967295 0) (2 ^ 32 - 1) = 0
   /\ 0 <= baseline_seed 4294967295 0 < 2 ^ 64)%Z.
Proof. refine (baseline_seed_concatenates 4294967295 0 _ _); lia. Defined.

Lemma randomSeed_single_draw_witness :
  randomSeed (T := Scenario.template 4) 8 Scenario.ones_then_zeros
  = (4294967295 mod 2 ^ 64)%Z.
Proof.
  refine (randomSeed_single_draw (T := Scenario.template 4) 8 Scenario.ones_then_zeros _ _);
    cbn; lia.
Defined.

Lemma randomSeed_8_4_witness :
  randomSeed (T := Scenario.template 4) 4 Scenario.ones_then_zeros
  = Z.lor (Z.shiftl 4294967295 4) 0
  /\ (0 <= randomSeed (T := Scenario.template 4) 4 Scenario.ones_then_zeros < 2 ^ 36)%Z.
Proof.
  refine (randomSeed_8_4 (T := Scenario.template 4) Scenario.ones_then_zeros _ _).
  - reflexivity.
  - intros [|i]; cbn; lia.
Defined.

(** ** After the workers have been stopped *)

Lemma stopped_pool_step {T : Template} (a : action) (s s' : System) :
  (forall i p, m_producers (cache s) !! i = Some p -> m_shutdown p = true) ->
  step a s = Some s' ->
  a = Generate
  /\ m_producers (cache s') = m_producers (cache s)
  /\ m_values (m_activeChunk (cache s')) = m_values (m_activeChunk (cache s))
  /\ m_nextIndex (m_activeChunk (cache s')) = m_nextIndex (m_activeChunk (cache s)) + 1
  /\ m_nextIndex (m_activeChunk (cache s)) < length (m_values (m_activeChunk (cache s)))
  /\ length (consumed s') = length (consumed s) + 1.
Proof.
  intros Hall. destruct a as [i|]; cbn [step].
  - destruct (m_producers (cache s) !! i) as [p|] eqn:Hp; [|done].
    unfold Producer_run. rewrite (Hall i p Hp).
    by destruct (Producer_fillWaitCondition p).
  - destruct (RngCache_generate (cache s)) as [| |swapped v c] eqn:Hg; try done.
    intros [= <-]. fields. split; [done|]. unfold RngCache_generate in Hg.
    destruct (Chunk_empty (m_activeChunk (cache s))) eqn:He.
    + exfalso. unfold RngCache_nextProducer in Hg.
      destruct (m_producers (cache s) !! m_nextProducer (cache s)) as [p|] eqn:Hp; [|done].
      fields. rewrite Hp in Hg. unfold Producer_swapChunk, Producer_swapWaitCondition in Hg.
      by rewrite (Hall _ p Hp) in Hg.
    + destruct (RngCache_pop_producers _ _ _ _ _ Hg) as (_ & -> & _ & -> & ->).
      split; [done|]. split; [done|]. split; [done|].
      rewrite length_app. split; [|cbn; lia].
      unfold RngCache_pop, Chunk_next in Hg. rewrite He in Hg.
      destruct (m_values (m_activeChunk (cache s)) !! m_nextIndex (m_activeChunk (cache s)))
        as [v0|] eqn:Hv; [|done].
      by eapply lookup_lt_Some.
Qed.

(** X18: Once every worker has been stopped the cache only gives out what is left
    in the active chunk: no worker thread takes another step, every step is
    a call of [generate()] that reads the next slot of the active chunk, and
    so no more values are returned than the chunk still held. *)
Theorem stopped_pool_drains {T : Template} (schedule : list action) (s s' : System) :
  (forall i p, m_producers (cache s) !! i = Some p -> m_shutdown p = true) ->
  m_nextIndex (m_activeChunk (cache s)) <= length (m_values (m_activeChunk (cache s))) ->
  run schedule s = Some s' ->
  Forall (fun a => a = Generate) schedule
  /\ m_producers (cache s') = m_producers (cache s)
  /\ m_values (m_activeChunk (cache s')) = m_values (m_activeChunk (cache s))
  /\ m_nextIndex (m_activeChunk (cache s'))
     = m_nextIndex (m_activeChunk (cache s)) + length schedule
  /\ length (consumed s') = length (consumed s) + length schedule
  /\ m_nextIndex (m_activeChunk (cache s)) + length schedule
     <= length (m_values (m_activeChunk (cache s))).
Proof.
  revert s. induction schedule as [|a rest IH]; intros s Hall Hle; cbn [run].
  - intros [= <-]. cbn [length]. rewrite !Nat.add_0_r. by repeat split.
  - destruct (step a s) as [s1|] eqn:Hstep; [|done]. intros Hrun.
    destruct (stopped_pool_step a s s1 Hall Hstep) as (-> & Hp & Hv & Hi & Hlt & Hc).
    destruct (IH s1) as (Hgen & Hp' & Hv' & Hi' & Hc' & Hle'); [| |done|].
    + intros i p. rewrite Hp. apply Hall.
    + rewrite Hv, Hi. lia.
    + rewrite Hp', Hv', Hi', Hc', Hp, Hv, Hi, Hc. rewrite Hv, Hi in Hle'.
      cbn [length]. repeat split; try done; try lia. by constructor.
Qed.

Lemma stopped_pool_drains_witness :
  exists s',
    run (T := Scenario.template 4) [Generate; Generate; Generate]
      (start Cases.stopped_with_leftovers) = Some s'
    /\ length (consumed s') = 0 + 3
    /\ 1 + 3 <= 4.
Proof.
  eexists. split; [vm_compute; reflexivity|].
  match goal with
  | |- length (consumed ?s) = _ /\ _ =>
      destruct (stopped_pool_drains (T := Scenario.template 4)
                  [Generate; Generate; Generate]
                  (start Cases.stopped_with_leftovers) s) as (_ & _ & _ & _ & Hc & Hle)
  end.
  - intros [|i] p; [by intros [= <-] | done].
  - cbn. lia.
  - vm_compute. reflexivity.
  - split; [exact Hc | exact Hle].
Defined.

(** ** More about construction *)

(** X19: With two workers or more, construction starts a thread before it has
    drawn the last sub-seed; with none or one it does not. *)
Theorem Producer_create_interleaves {T : Template} (distribution : DistributionT)
    (seed : Z) (count : nat) :
  seeds_before_threads (Producer_create_events distribution seed count)
  = (count <=? 1).
Proof.
  unfold Producer_create_events, Producer_create_run.
  rewrite ranges_generate_draws, repeat_length. cbn [snd].
  rewrite Producer_create_one_state. cbn [snd app].
  by destruct count as [|[|n]].
Qed.
